(** * HashBin: hash-format classifiers, strategy holder and strategy wrappers

    A shallow embedding of the TypeScript sources of the hashbin library
    (format classifiers under [lib/utils], the [IsHashed] validator, the
    [HashBin] strategy holder and the bcrypt / Argon2 / PBKDF2 / RSA
    wrappers under [lib/services]) together with the properties that the
    specification states about them.

    JavaScript strings are sequences of UTF-16 code units, so a string is a
    list of numbers.  Everything the sources delegate to the runtime or to
    an external package (Unicode case conversion, [Buffer] decoding, the
    bcrypt, argon2 and crypto primitives) is a variable of the enclosing
    section: the results hold whatever these functions are. *)

From Stdlib Require Import String Ascii NArith ZArith Bool Lia.
From stdpp Require Import base option list gmap.

Local Open Scope N_scope.

(** ** Strings and values *)

Definition char := N.
Definition str := list char.

Definition cu (a : ascii) : char := N_of_ascii a.
Arguments cu a%_char.

Definition lit (s : string) : str := map cu (list_ascii_of_string s).
Arguments lit s%_string.

(** The JavaScript values the modelled functions can receive.  An object is
    a reference into a heap; a function value is a class constructor;
    [JBuiltin name] is the built-in value of [Object.prototype[name]] (a
    method, or the prototype object itself for [__proto__]). *)
Inductive Class :=
| BcryptServiceClass
| Argon2ServiceClass
| Pbkdf2StrategyClass
| RsaServiceClass
| OtherClass (name : str).

Definition loc := nat.

Inductive JsValue :=
| JUndefined
| JNull
| JBool (b : bool)
| JNumber (n : Z)
| JString (s : str)
| JBuffer (bytes : list N)
| JObject (ref : loc)
| JFunction (ctor : Class)
| JBuiltin (name : str).

Inductive JsType :=
| TyUndefined | TyObject | TyBoolean | TyNumber | TyString | TyFunction.

#[global] Instance JsType_eq_dec : EqDecision JsType.
Proof. solve_decision. Defined.

(** The [typeof] operator. *)
Definition typeof (v : JsValue) : JsType :=
  match v with
  | JUndefined => TyUndefined
  | JNull => TyObject
  | JBool _ => TyBoolean
  | JNumber _ => TyNumber
  | JString _ => TyString
  | JBuffer _ => TyObject
  | JObject _ => TyObject
  | JFunction _ => TyFunction
  | JBuiltin name =>
      if bool_decide (name = lit "__proto__") then TyObject else TyFunction
  end.

(** Completion of a call: a normal return or a thrown exception (for an
    [async] method: a resolved or a rejected promise). *)
Inductive JsError :=
| TypeError
| Error (message : str).

Inductive Completion (A : Type) :=
| Return (a : A)
| Throw (e : JsError).
Arguments Return {A} a.
Arguments Throw {A} e.

Definition bindC {A B} (c : Completion A) (k : A -> Completion B) : Completion B :=
  match c with
  | Return a => k a
  | Throw e => Throw e
  end.

Notation "'let*' x ':=' c 'in' k" := (bindC c (fun x => k))
  (at level 10, x name, c at level 100, k at level 200).

(** A parameter of TypeScript type [string | Buffer]. *)
Inductive Data :=
| DString (s : str)
| DBuffer (bytes : list N).

Definition valueOfData (d : Data) : JsValue :=
  match d with
  | DString s => JString s
  | DBuffer b => JBuffer b
  end.

(** ** Regular expressions

    The patterns of the sources use anchors, pattern characters, character
    classes, [\d], alternation, groups and bounded quantifiers.  The matcher
    follows the backtracking semantics of ECMA-262 (section 22.2.2): a
    compiled pattern takes a match state and a continuation. *)

Inductive ClassAtom :=
| ClassChar (c : char)
| ClassRange (lo hi : char).

Inductive Regex :=
| Empty
| AssertBegin                               (* ^ *)
| AssertEnd                                 (* $ *)
| PatternChar (c : char)                    (* a, \$ *)
| CharClass (atoms : list ClassAtom)        (* [...] *)
| DigitEscape                               (* \d *)
| Seq (r1 r2 : Regex)
| Disj (r1 r2 : Regex)                      (* r1|r2 *)
| Group (capturing : bool) (r : Regex)      (* (r) and (?:r) *)
| Quant (r : Regex) (min max : nat).        (* r{min,max}; r? is r{0,1} *)

Definition SeqOf (rs : list Regex) : Regex := foldr Seq Empty rs.
Definition Literal (s : string) : Regex := SeqOf (map PatternChar (lit s)).
Arguments Literal s%_string.
Definition Optional (r : Regex) : Regex := Quant r 0 1.
Definition Exactly (n : nat) (r : Regex) : Regex := Quant r n n.

Record RegExp := { source : Regex; ignoreCase : bool }.

Record MatchState := { endIndex : nat; rest : str }.

Definition Continuation := MatchState -> bool.

Definition rangeChars (lo hi : char) : list char :=
  map (fun k => lo + N.of_nat k) (seq 0 (N.to_nat (hi + 1 - lo))).

Definition atomChars (a : ClassAtom) : list char :=
  match a with
  | ClassChar c => [c]
  | ClassRange lo hi => rangeChars lo hi
  end.

Definition classChars (atoms : list ClassAtom) : list char :=
  concat (map atomChars atoms).

Definition digitChars : list char := rangeChars (cu "0") (cu "9").

Definition asciiUpper (c : char) : char :=
  if (97 <=? c) && (c <=? 122) then c - 32 else c.

(** ** Option objects of the strategies (lib/services)

    A field declared with [?] is absent ([None]) or present. *)

(** An argument that the caller may omit ([undefined]) or pass as [null]. *)
Inductive Arg (A : Type) :=
| ArgUndefined
| ArgNull
| ArgValue (a : A).
Arguments ArgUndefined {A}.
Arguments ArgNull {A}.
Arguments ArgValue {A} a.

Module BcryptOptions.
Record t := { salt : option str; rounds : option Z }.
End BcryptOptions.

(** The numeric fields of the options of the argon2 package. *)
Module Argon2Options.
Record t := {
  hashLength : option Z;
  timeCost : option Z;
  memoryCost : option Z;
  parallelism : option Z }.
Definition empty : t :=
  {| hashLength := None; timeCost := None; memoryCost := None;
     parallelism := None |}.
End Argon2Options.

Module Argon2Service.
Record t := { options : option Argon2Options.t }.
End Argon2Service.

Module Pbkdf2Options.
Record t := {
  salt : option Data;
  iterations : option Z;
  keylen : option Z;
  digest : option str }.
Definition empty : t :=
  {| salt := None; iterations := None; keylen := None; digest := None |}.
End Pbkdf2Options.

Module Pbkdf2Strategy.
Record t := { options : option Pbkdf2Options.t }.
End Pbkdf2Strategy.

(** The options [{ ...o, salt }]. *)
Definition withSalt (salt : Data) (o : Pbkdf2Options.t) : Pbkdf2Options.t :=
  {| Pbkdf2Options.salt := Some salt;
     Pbkdf2Options.iterations := Pbkdf2Options.iterations o;
     Pbkdf2Options.keylen := Pbkdf2Options.keylen o;
     Pbkdf2Options.digest := Pbkdf2Options.digest o |}.

Module KeyEncoding.
Record t := { type : str; format : str }.
End KeyEncoding.

Module RsaPemOptions.
Record t := {
  modulusLength : option Z;
  publicKeyEncoding : option KeyEncoding.t;
  privateKeyEncoding : option KeyEncoding.t }.
End RsaPemOptions.

Module RsaService.
Record t := { options : option RsaPemOptions.t }.
End RsaService.

Record KeyPair := { publicKey : str; privateKey : str }.

(** The padding constants of [crypto.constants] and the first argument of
    [crypto.publicEncrypt] and [crypto.privateDecrypt]. *)
Inductive Padding :=
| RSA_PKCS1_PADDING
| RSA_NO_PADDING
| RSA_PKCS1_OAEP_PADDING.

Module RsaCipherOptions.
Record t := { key : str; padding : Padding; oaepHash : str }.
End RsaCipherOptions.

(** What [RsaService.encrypt] and [decrypt] call: [crypto.publicEncrypt]
    (randomized, so it threads the state of the random source) and
    [crypto.privateDecrypt] of the [crypto] field of the service,
    [Buffer.from(string)] (UTF-8 encoding) and [Buffer.from(string,
    'base64')] (lenient base64 decoding). *)
Record CipherPrimitives (Entropy : Type) := {
  crypto_publicEncrypt :
    RsaCipherOptions.t -> list N -> Entropy -> Completion (list N) * Entropy;
  crypto_privateDecrypt : RsaCipherOptions.t -> list N -> Completion (list N);
  utf8Encode : str -> list N;
  base64Decode : str -> list N }.
Arguments crypto_publicEncrypt {Entropy} _.
Arguments crypto_privateDecrypt {Entropy} _.
Arguments utf8Encode {Entropy} _.
Arguments base64Decode {Entropy} _.

(** What [console.error(label, error)] writes. *)
Definition Console := list (str * JsError).

(** [a ?? b] and [a || b] on optional fields whose present values are
    never [null] (for [||]: objects, which are always truthy). *)
Definition nullish {A} (a b : option A) : option A :=
  match a with
  | Some v => Some v
  | None => b
  end.

(** Truthiness of an optional string and of an optional number. *)
Definition truthyString (s : option str) : bool :=
  match s with
  | Some (_ :: _) => true
  | _ => false
  end.

Definition truthyNumber (n : option Z) : bool :=
  match n with
  | Some n => negb (n =? 0)%Z
  | None => false
  end.

(** ** The strategy holder (lib/services/hashbin.service.ts) *)

Record Obj := { classOf : Class }.
Definition Heap := list Obj.

Record HashBin := { strategyInstance : JsValue }.

(** A freshly constructed holder: the field has no initializer. *)
Definition newHashBin : HashBin := {| strategyInstance := JUndefined |}.

(** [new C()]: allocation of a new object of class [C]. *)
Definition construct (C : Class) (h : Heap) : loc * Heap :=
  (length h, h ++ [ {| classOf := C |} ]).

Definition setInstance (strategy : JsValue) (h : Heap) (this : HashBin)
    : Completion (Heap * HashBin) :=
  if bool_decide (typeof strategy = TyFunction) then
    match strategy with
    | JFunction C =>
        let '(l, h') := construct C h in
        Return (h', {| strategyInstance := JObject l |})
    | _ => Throw TypeError       (* a built-in method is not a constructor *)
    end
  else Return (h, {| strategyInstance := strategy |}).

Definition getInstance (this : HashBin) : Completion JsValue :=
  Return (strategyInstance this).

(** ** A reference instance of the runtime

    Identity case mapping outside ASCII, Latin-1 decoding, a counter as
    random source and primitives that tag their arguments: the instance on
    which the general results are exercised. *)

Definition refUpper (c : char) : str := [c].
Definition refDecode (b : list N) : str := b.
Definition refToString (v : JsValue) : str := lit "[object Object]".
Definition refBase64 (b : list N) : str := b.

Definition refBytes (d : Data) : list N :=
  match d with
  | DString s => s
  | DBuffer b => b
  end.

Definition refGenSalt (rounds : option Z) (e : nat)
    : Completion str * nat :=
  (Return (lit "$2b$10$" ++ repeat (cu "A") 22 ++ [N.of_nat e]), S e).

Definition refBcryptHash (data : Data) (salt : str) : Completion str :=
  Return (salt ++ refBytes data).

Definition refPbkdf2 (data : Data) (salt : option Data)
    (iterations keylen : option Z) (digest : option str)
    : Completion (list N) :=
  match salt, iterations, keylen, digest with
  | Some sa, Some _, Some _, Some _ => Return (refBytes sa ++ refBytes data)
  | _, _, _, _ => Throw TypeError
  end.

Definition refArgon2Hash (data : Data) (o : option Argon2Options.t) (e : nat)
    : Completion str * nat :=
  (Return (lit "$argon2id$v=19$m=65536,t=3,p=4$" ++ [N.of_nat e]), S e).

Definition refArgon2Verify (encrypted : str) (data : Data)
    (o : option Argon2Options.t) : Completion bool :=
  Return (bool_decide (take 10 encrypted = lit "$argon2id$")).

Definition refEncode (s : str) : list N := s.
Definition refBase64Decode (s : str) : list N := s.

Definition refPublicEncrypt (o : RsaCipherOptions.t) (bytes : list N) (e : nat)
    : Completion (list N) * nat :=
  (Return (RsaCipherOptions.key o ++ N.of_nat e :: bytes), S e).

Definition refPrivateDecrypt (o : RsaCipherOptions.t) (c : list N)
    : Completion (list N) :=
  if bool_decide (take (length (RsaCipherOptions.key o)) c = RsaCipherOptions.key o)
  then Return (drop (S (length (RsaCipherOptions.key o))) c)
  else Throw (Error (lit "oaep decoding error")).

Definition refCipher : CipherPrimitives nat :=
  {| crypto_publicEncrypt := refPublicEncrypt;
     crypto_privateDecrypt := refPrivateDecrypt;
     utf8Encode := refEncode;
     base64Decode := refBase64Decode |}.

Definition refOptions : Pbkdf2Options.t :=
  {| Pbkdf2Options.salt := Some (DString (lit "testSalt"));
     Pbkdf2Options.iterations := Some 1000%Z;
     Pbkdf2Options.keylen := Some 64%Z;
     Pbkdf2Options.digest := Some (lit "sha256") |}.

Definition refStrategy : Pbkdf2Strategy.t :=
  {| Pbkdf2Strategy.options := Some refOptions |}.

Section WithRuntime.

(** Unicode default upper-case conversion of a single code unit outside the
    ASCII range (the result is a string, possibly of several code units). *)
Variable unicodeUpper : char -> str.

(** [Buffer.prototype.toString()]: UTF-8 decoding of a byte sequence. *)
Variable bufferToString : list N -> str.

(** [toString()] of a number, boolean, object or function. *)
Variable runtimeToString : JsValue -> str.

Definition toUpperCase (ch : char) : str :=
  if ch <? 128 then [asciiUpper ch] else unicodeUpper ch.

(** ECMA-262 Canonicalize, for a pattern without the [u] flag. *)
Definition Canonicalize (ic : bool) (ch : char) : char :=
  if negb ic then ch
  else match toUpperCase ch with
       | [cuv] => if (128 <=? ch) && (cuv <? 128) then ch else cuv
       | _ => ch
       end.

Definition charSetMem (ic : bool) (A : list char) (ch : char) : bool :=
  existsb (fun a => Canonicalize ic a =? Canonicalize ic ch) A.

Definition CharacterSetMatcher (ic : bool) (A : list char)
    (x : MatchState) (c : Continuation) : bool :=
  match rest x with
  | [] => false
  | ch :: s =>
      if charSetMem ic A ch
      then c {| endIndex := S (endIndex x); rest := s |}
      else false
  end.

Fixpoint RepeatMatcher (m : MatchState -> Continuation -> bool)
    (min max : nat) (x : MatchState) (c : Continuation) {struct max} : bool :=
  match max with
  | O => c x
  | S max' =>
      let d : Continuation := fun y =>
        if Nat.eqb min 0 && Nat.eqb (endIndex y) (endIndex x) then false
        else RepeatMatcher m (Nat.pred min) max' y c in
      if Nat.eqb min 0 then m x d || c x else m x d
  end.

Fixpoint CompileSubpattern (ic : bool) (r : Regex)
    (x : MatchState) (c : Continuation) {struct r} : bool :=
  match r with
  | Empty => c x
  | AssertBegin => if Nat.eqb (endIndex x) 0 then c x else false
  | AssertEnd => match rest x with [] => c x | _ :: _ => false end
  | PatternChar a => CharacterSetMatcher ic [a] x c
  | CharClass atoms => CharacterSetMatcher ic (classChars atoms) x c
  | DigitEscape => CharacterSetMatcher ic digitChars x c
  | Seq r1 r2 =>
      CompileSubpattern ic r1 x (fun y => CompileSubpattern ic r2 y c)
  | Disj r1 r2 => CompileSubpattern ic r1 x c || CompileSubpattern ic r2 x c
  | Group _ r1 => CompileSubpattern ic r1 x c
  | Quant r1 min max => RepeatMatcher (CompileSubpattern ic r1) min max x c
  end.

(** One attempt of the compiled pattern at index [i] of the input. *)
Definition matchAt (R : RegExp) (input : str) (i : nat) : bool :=
  CompileSubpattern (ignoreCase R) (source R)
    {| endIndex := i; rest := drop i input |} (fun _ => true).

(** [RegExp.prototype.test] for a pattern without the [g] and [y] flags:
    the match is attempted at every index from 0 to the length of the
    input. *)
Definition RegExpTest (R : RegExp) (input : str) : bool :=
  existsb (matchAt R input) (seq 0 (S (length input))).

(** ** The classifiers (lib/utils) *)

Definition toString (d : Data) : str :=
  match d with
  | DString s => s
  | DBuffer b => bufferToString b
  end.

Definition dollarClass : Regex := CharClass [ClassChar (cu "$")].

(** /^[$]2[abxy]?[$](?:0[4-9]|[12][0-9]|3[01])[$][./0-9a-zA-Z]{53}$/ *)
Definition bcryptHashPattern : RegExp :=
  {| source := SeqOf
       [ AssertBegin;
         dollarClass;
         PatternChar (cu "2");
         Optional (CharClass [ClassChar (cu "a"); ClassChar (cu "b");
                              ClassChar (cu "x"); ClassChar (cu "y")]);
         dollarClass;
         Group false
           (Disj (Seq (PatternChar (cu "0"))
                      (CharClass [ClassRange (cu "4") (cu "9")]))
           (Disj (Seq (CharClass [ClassChar (cu "1"); ClassChar (cu "2")])
                      (CharClass [ClassRange (cu "0") (cu "9")]))
                 (Seq (PatternChar (cu "3"))
                      (CharClass [ClassChar (cu "0"); ClassChar (cu "1")]))));
         dollarClass;
         Exactly 53
           (CharClass [ClassChar (cu "."); ClassChar (cu "/");
                       ClassRange (cu "0") (cu "9");
                       ClassRange (cu "a") (cu "z");
                       ClassRange (cu "A") (cu "Z")]);
         AssertEnd ];
     ignoreCase := false |}.

Definition isBcrypt (data : Data) : bool :=
  RegExpTest bcryptHashPattern (toString data).

Definition base64Class : Regex :=
  CharClass [ClassRange (cu "A") (cu "Z"); ClassRange (cu "a") (cu "z");
             ClassRange (cu "0") (cu "9"); ClassChar (cu "+");
             ClassChar (cu "/")].

(** /^\$argon2id\$v=(?:16|19)\$m=\d{1,10},t=\d{1,10},p=\d{1,3}
      (?:,keyid=[A-Za-z0-9+/]{0,11}(?:,data=[A-Za-z0-9+/]{0,43})?)?
      \$[A-Za-z0-9+/]{11,64}\$[A-Za-z0-9+/]{16,86}$/i *)
Definition argon2HashPattern : RegExp :=
  {| source := SeqOf
       [ AssertBegin;
         PatternChar (cu "$"); Literal "argon2id";
         PatternChar (cu "$"); Literal "v=";
         Group false (Disj (Literal "16") (Literal "19"));
         PatternChar (cu "$"); Literal "m="; Quant DigitEscape 1 10;
         Literal ",t="; Quant DigitEscape 1 10;
         Literal ",p="; Quant DigitEscape 1 3;
         Optional (Group false (SeqOf
           [ Literal ",keyid="; Quant base64Class 0 11;
             Optional (Group false (SeqOf
               [ Literal ",data="; Quant base64Class 0 43 ])) ]));
         PatternChar (cu "$"); Quant base64Class 11 64;
         PatternChar (cu "$"); Quant base64Class 16 86;
         AssertEnd ];
     ignoreCase := true |}.

Definition isArgon2 (data : Data) : bool :=
  RegExpTest argon2HashPattern (toString data).

(** /^[a-fA-F0-9]{32}$/ *)
Definition md5HashPattern : RegExp :=
  {| source := SeqOf
       [ AssertBegin;
         Exactly 32 (CharClass [ClassRange (cu "a") (cu "f");
                                ClassRange (cu "A") (cu "F");
                                ClassRange (cu "0") (cu "9")]);
         AssertEnd ];
     ignoreCase := false |}.

Definition isMD5 (data : Data) : bool :=
  RegExpTest md5HashPattern (toString data).

Definition hexClass : Regex :=
  CharClass [ClassRange (cu "A") (cu "F"); ClassRange (cu "a") (cu "f");
             ClassRange (cu "0") (cu "9")].

(** /^[A-Fa-f0-9]{40}$/ *)
Definition sha1HashPattern : RegExp :=
  {| source := SeqOf [ AssertBegin; Exactly 40 hexClass; AssertEnd ];
     ignoreCase := false |}.

Definition isSHA1 (data : Data) : bool :=
  RegExpTest sha1HashPattern (toString data).

(** /^[A-Fa-f0-9]{64}$/ *)
Definition sha256HashPattern : RegExp :=
  {| source := SeqOf [ AssertBegin; Exactly 64 hexClass; AssertEnd ];
     ignoreCase := false |}.

Definition isSHA256 (data : Data) : bool :=
  RegExpTest sha256HashPattern (toString data).

(** ** The IsHashed validator (lib/utils/is-hashed-validator.decorator.ts) *)

(** Names of the properties every object literal inherits from
    [Object.prototype]. *)
Definition objectPrototypeNames : list str :=
  [ lit "constructor"; lit "hasOwnProperty"; lit "isPrototypeOf";
    lit "propertyIsEnumerable"; lit "toLocaleString"; lit "toString";
    lit "valueOf"; lit "__defineGetter__"; lit "__defineSetter__";
    lit "__lookupGetter__"; lit "__lookupSetter__"; lit "__proto__" ].

(** Property access [obj[key]] on an object literal with own properties
    [own]: an own property, else an inherited one, else [undefined]. *)
Definition getProperty (own : gmap (list N) JsValue) (key : str) : JsValue :=
  match own !! key with
  | Some v => v
  | None =>
      if bool_decide (key ∈ objectPrototypeNames) then
        if bool_decide (key = lit "constructor")
        then JFunction (OtherClass (lit "Object"))
        else JBuiltin key
      else JUndefined
  end.

(** The object literal of [mapValidationByHashType]; every entry is
    evaluated when the literal is built. *)
Definition validationTable (value : str) : gmap (list N) JsValue :=
  <[ lit "bcrypt" := JBool (isBcrypt (DString value)) ]>
  (<[ lit "argon2" := JBool (isArgon2 (DString value)) ]>
  (<[ lit "md5" := JBool (isMD5 (DString value)) ]>
  (<[ lit "sha1" := JBool (isSHA1 (DString value)) ]>
  (<[ lit "sha256" := JBool (isSHA256 (DString value)) ]>
  (<[ lit "default" := JBool false ]> ∅))))).

Definition mapValidationByHashType (type : str) (value : str) : JsValue :=
  getProperty (validationTable value) type.

(** [!type] for the optional [type] of the decorator options: [undefined]
    and the empty string are falsy. *)
Definition typeIsFalsy (type : option str) : bool :=
  match type with
  | None => true
  | Some [] => true
  | Some (_ :: _) => false
  end.

(** [validate(value)] of the validator registered by [IsHashed({type})]. *)
Definition validate (type : option str) (value : JsValue) : JsValue :=
  if bool_decide (typeof value ≠ TyString) then JBool false
  else
    match value with
    | JString s =>
        if typeIsFalsy type
        then JBool (isBcrypt (DString s) || isArgon2 (DString s))
        else mapValidationByHashType (default [] type) s
    | _ => JBool false
    end.

(** The classifiers as an untyped JavaScript caller reaches them:
    [data.toString()] is a property access on the argument, which throws a
    [TypeError] on [undefined] and [null]; a string returns itself, a Buffer
    is decoded, and any other value is printed by the runtime. *)
Definition valueToString (v : JsValue) : Completion str :=
  match v with
  | JUndefined | JNull => Throw TypeError
  | JString s => Return s
  | JBuffer b => Return (bufferToString b)
  | _ => Return (runtimeToString v)
  end.

Definition callClassifier (pattern : RegExp) (v : JsValue) : Completion bool :=
  let* s := valueToString v in Return (RegExpTest pattern s).

(** ** The strategies (lib/services)

    The primitives of the bcrypt, argon2 and crypto packages are variables.
    A primitive that draws random bytes threads the state of the random
    source; an argument that the wrapper may leave [undefined] is optional
    in the primitive, which does its own validation. *)

Variable Entropy : Type.

Definition M (A : Type) : Type := Entropy -> Completion A * Entropy.

Definition retM {A} (a : A) : M A := fun e => (Return a, e).

Definition liftM {A} (c : Completion A) : M A := fun e => (c, e).

Definition bindM {A B} (m : M A) (k : A -> M B) : M B :=
  fun e =>
    match m e with
    | (Return a, e') => k a e'
    | (Throw err, e') => (Throw err, e')
    end.

Variable bcrypt_genSaltSync : option Z -> M str.
Variable bcrypt_hash : Data -> str -> Completion str.
Variable bcrypt_compare : Data -> str -> Completion bool.

Variable argon2_hash : Data -> option Argon2Options.t -> M str.
Variable argon2_verify : str -> Data -> option Argon2Options.t -> Completion bool.

Variable crypto_randomBytes : N -> Entropy -> list N * Entropy.
Variable crypto_pbkdf2 :
  Data -> option Data -> option Z -> option Z -> option str ->
  Completion (list N).
Variable crypto_generateKeyPairSync :
  option Z -> option KeyEncoding.t -> option KeyEncoding.t -> M KeyPair.

(** [Buffer.prototype.toString('base64')]. *)
Variable bufferToBase64 : list N -> str.

(** *** BcryptService *)

Definition BcryptService_getSalt (options : option BcryptOptions.t) : M str :=
  let salt := options ≫= BcryptOptions.salt in
  let rounds := options ≫= BcryptOptions.rounds in
  if truthyString salt then retM (default [] salt)
  else if negb (truthyString salt) && truthyNumber rounds
       then bcrypt_genSaltSync rounds
       else bcrypt_genSaltSync None.

Definition BcryptService_hash (data : Data) (options : option BcryptOptions.t)
    : M str :=
  bindM (BcryptService_getSalt options) (fun salt =>
  liftM (bcrypt_hash data salt)).

Definition BcryptService_compare (data : Data) (encrypted : str)
    : Completion bool :=
  bcrypt_compare data encrypted.

(** *** Argon2Service *)

(** A parameter declared [options: Argon2Options = {}]: the default
    replaces [undefined] only. *)
Definition defaultParam {A} (dflt : A) (a : Arg A) : Arg A :=
  match a with
  | ArgUndefined => ArgValue dflt
  | _ => a
  end.

Definition Argon2Service_hash (this : Argon2Service.t) (data : Data)
    (options : Arg Argon2Options.t) : M str :=
  match defaultParam Argon2Options.empty options with
  | ArgValue o => argon2_hash data (Some o)
  | _ =>
      match Argon2Service.options this with
      | Some o => argon2_hash data (Some o)
      | None => argon2_hash data None
      end
  end.

Definition Argon2Service_compare (this : Argon2Service.t) (data : Data)
    (encrypted : str) (options : Arg Argon2Options.t) : Completion bool :=
  match defaultParam Argon2Options.empty options with
  | ArgValue o => argon2_verify encrypted data (Some o)
  | _ =>
      match Argon2Service.options this with
      | Some o => argon2_verify encrypted data (Some o)
      | None => argon2_verify encrypted data None
      end
  end.

(** *** Pbkdf2Strategy *)

Definition Pbkdf2Strategy_new (options : option Pbkdf2Options.t)
    (e : Entropy) : Pbkdf2Strategy.t * Entropy :=
  match options with
  | Some o => ({| Pbkdf2Strategy.options := Some o |}, e)
  | None =>
      let '(bytes, e') := crypto_randomBytes 16 e in
      ({| Pbkdf2Strategy.options := Some
            {| Pbkdf2Options.salt := Some (DBuffer bytes);
               Pbkdf2Options.iterations := Some 1000%Z;
               Pbkdf2Options.keylen := Some 64%Z;
               Pbkdf2Options.digest := Some (lit "sha256") |} |}, e')
  end.

Definition Pbkdf2Strategy_getFinalOptions (this : Pbkdf2Strategy.t)
    (options : Pbkdf2Options.t) : Pbkdf2Options.t :=
  let dflt := Pbkdf2Strategy.options this in
  {| Pbkdf2Options.salt :=
       nullish (Pbkdf2Options.salt options) (dflt ≫= Pbkdf2Options.salt);
     Pbkdf2Options.iterations :=
       nullish (Pbkdf2Options.iterations options)
               (dflt ≫= Pbkdf2Options.iterations);
     Pbkdf2Options.keylen :=
       nullish (Pbkdf2Options.keylen options) (dflt ≫= Pbkdf2Options.keylen);
     Pbkdf2Options.digest :=
       nullish (Pbkdf2Options.digest options) (dflt ≫= Pbkdf2Options.digest)
  |}.

Definition Pbkdf2Strategy_hash (this : Pbkdf2Strategy.t) (data : Data)
    (options : option Pbkdf2Options.t) : Completion str :=
  let final :=
    Pbkdf2Strategy_getFinalOptions this (default Pbkdf2Options.empty options) in
  let* hashedData :=
    crypto_pbkdf2 data (Pbkdf2Options.salt final)
      (Pbkdf2Options.iterations final) (Pbkdf2Options.keylen final)
      (Pbkdf2Options.digest final) in
  Return (bufferToBase64 hashedData).

(** [hashed.toString('base64')]: a string ignores the argument. *)
Definition toStringBase64 (hashed : Data) : str :=
  match hashed with
  | DString s => s
  | DBuffer b => bufferToBase64 b
  end.

Definition Pbkdf2Strategy_compare (this : Pbkdf2Strategy.t) (data : Data)
    (hashed : Data) (options : option Pbkdf2Options.t) : Completion bool :=
  let options :=
    match options with
    | Some o => o
    | None => default Pbkdf2Options.empty (Pbkdf2Strategy.options this)
    end in
  let final := Pbkdf2Strategy_getFinalOptions this options in
  let* hashedData := Pbkdf2Strategy_hash this data (Some final) in
  Return (bool_decide (hashedData = toStringBase64 hashed)).

(** *** RsaService *)

Definition spkiPem : KeyEncoding.t :=
  {| KeyEncoding.type := lit "spki"; KeyEncoding.format := lit "pem" |}.

Definition pkcs8Pem : KeyEncoding.t :=
  {| KeyEncoding.type := lit "pkcs8"; KeyEncoding.format := lit "pem" |}.

(** The property access [options.publicKeyEncoding] throws a [TypeError]
    when [options] is [undefined]. *)
Definition RsaService_getFinalOptions (this : RsaService.t)
    (options : option RsaPemOptions.t) : Completion RsaPemOptions.t :=
  match options with
  | None => Throw TypeError
  | Some o =>
      let dflt := RsaService.options this in
      Return
        {| RsaPemOptions.modulusLength := Some 2048%Z;
           RsaPemOptions.publicKeyEncoding :=
             nullish (RsaPemOptions.publicKeyEncoding o)
               (nullish (dflt ≫= RsaPemOptions.publicKeyEncoding)
                        (Some spkiPem));
           RsaPemOptions.privateKeyEncoding :=
             nullish (RsaPemOptions.privateKeyEncoding o)
               (nullish (dflt ≫= RsaPemOptions.privateKeyEncoding)
                        (Some pkcs8Pem)) |}
  end.

Definition RsaService_generateKeyPair (this : RsaService.t)
    (options : option RsaPemOptions.t) : M KeyPair :=
  bindM (liftM (RsaService_getFinalOptions this options)) (fun final =>
  crypto_generateKeyPairSync (RsaPemOptions.modulusLength final)
    (RsaPemOptions.publicKeyEncoding final)
    (RsaPemOptions.privateKeyEncoding final)).

(** *** RsaService: encrypt and decrypt *)

Definition bufferFrom (P : CipherPrimitives Entropy) (data : Data) : list N :=
  match data with
  | DString s => utf8Encode P s
  | DBuffer b => b
  end.

Definition oaepSha256 (key : str) : RsaCipherOptions.t :=
  {| RsaCipherOptions.key := key;
     RsaCipherOptions.padding := RSA_PKCS1_OAEP_PADDING;
     RsaCipherOptions.oaepHash := lit "sha256" |}.

(** The [catch] clause logs the error of the primitive and throws a new
    error with a fixed message. *)
Definition RsaService_encrypt (P : CipherPrimitives Entropy) (data : Data)
    (publicKey : str) (e : Entropy) (console : Console)
    : Completion str * Entropy * Console :=
  match crypto_publicEncrypt P (oaepSha256 publicKey) (bufferFrom P data) e with
  | (Return encrypted, e') => (Return (bufferToBase64 encrypted), e', console)
  | (Throw error, e') =>
      (Throw (Error (lit "Encryption failed")), e',
       console ++ [(lit "Encryption error:", error)])
  end.

Definition RsaService_decrypt (P : CipherPrimitives Entropy) (encryptedData : str)
    (privateKey : str) (console : Console) : Completion str * Console :=
  match crypto_privateDecrypt P (oaepSha256 privateKey)
          (base64Decode P encryptedData) with
  | Return decrypted => (Return (bufferToString decrypted), console)
  | Throw error =>
      (Throw (Error (lit "Decryption failed")),
       console ++ [(lit "Decryption error:", error)])
  end.

(** ** Measures of a pattern

    The least and the greatest number of characters a match of a pattern
    consumes, whether every character it can consume is an ASCII one, and
    whether it is anchored at the start and at the end of the input. *)

Fixpoint minLen (r : Regex) : nat :=
  match r with
  | Empty | AssertBegin | AssertEnd => 0
  | PatternChar _ | CharClass _ | DigitEscape => 1
  | Seq r1 r2 => minLen r1 + minLen r2
  | Disj r1 r2 => Nat.min (minLen r1) (minLen r2)
  | Group _ r1 => minLen r1
  | Quant r1 min max => Nat.min min max * minLen r1
  end.

Fixpoint maxLen (r : Regex) : nat :=
  match r with
  | Empty | AssertBegin | AssertEnd => 0
  | PatternChar _ | CharClass _ | DigitEscape => 1
  | Seq r1 r2 => maxLen r1 + maxLen r2
  | Disj r1 r2 => Nat.max (maxLen r1) (maxLen r2)
  | Group _ r1 => maxLen r1
  | Quant r1 min max => max * maxLen r1
  end.

Definition asciiChars (A : list char) : bool := forallb (fun a => a <? 128) A.

Fixpoint asciiRegex (r : Regex) : bool :=
  match r with
  | Empty | AssertBegin | AssertEnd => true
  | PatternChar a => asciiChars [a]
  | CharClass atoms => asciiChars (classChars atoms)
  | DigitEscape => asciiChars digitChars
  | Seq r1 r2 | Disj r1 r2 => asciiRegex r1 && asciiRegex r2
  | Group _ r1 => asciiRegex r1
  | Quant r1 _ _ => asciiRegex r1
  end.

Fixpoint startsWithBegin (r : Regex) : bool :=
  match r with
  | AssertBegin => true
  | Seq r1 _ => startsWithBegin r1
  | _ => false
  end.

Fixpoint endsWithEnd (r : Regex) : bool :=
  match r with
  | AssertEnd => true
  | Seq r1 Empty => endsWithEnd r1
  | Seq _ r2 => endsWithEnd r2
  | _ => false
  end.

(** The match from [x] to [y] consumed the characters [w]. *)
Definition consumed (x y : MatchState) (w : str) : Prop :=
  rest x = w ++ rest y /\ endIndex y = (endIndex x + length w)%nat.

(** The input of a match state with its ASCII letters in upper case. *)
Definition upState (x : MatchState) : MatchState :=
  {| endIndex := endIndex x; rest := map asciiUpper (rest x) |}.

(** ** Declarative reading of the patterns

    [Matches ic r x y]: the pattern [r] matches the input from state [x] to
    state [y].  A quantifier with [max = 0] matches the empty string (in a
    parsed pattern [min <= max]); an iteration that is not required and
    consumes nothing is dropped, as ECMA-262 prescribes. *)

Definition advance (x : MatchState) (s : str) : MatchState :=
  {| endIndex := S (endIndex x); rest := s |}.

Inductive Matches (ic : bool) : Regex -> MatchState -> MatchState -> Prop :=
| MatchesEmpty x : Matches ic Empty x x
| MatchesBegin x : endIndex x = 0%nat -> Matches ic AssertBegin x x
| MatchesEnd x : rest x = [] -> Matches ic AssertEnd x x
| MatchesChar a x ch s :
    rest x = ch :: s -> charSetMem ic [a] ch = true ->
    Matches ic (PatternChar a) x (advance x s)
| MatchesClass atoms x ch s :
    rest x = ch :: s -> charSetMem ic (classChars atoms) ch = true ->
    Matches ic (CharClass atoms) x (advance x s)
| MatchesDigit x ch s :
    rest x = ch :: s -> charSetMem ic digitChars ch = true ->
    Matches ic DigitEscape x (advance x s)
| MatchesSeq r1 r2 x y z :
    Matches ic r1 x y -> Matches ic r2 y z -> Matches ic (Seq r1 r2) x z
| MatchesDisjL r1 r2 x y : Matches ic r1 x y -> Matches ic (Disj r1 r2) x y
| MatchesDisjR r1 r2 x y : Matches ic r2 x y -> Matches ic (Disj r1 r2) x y
| MatchesGroup cap r x y : Matches ic r x y -> Matches ic (Group cap r) x y
| MatchesQuantZero r min x : Matches ic (Quant r min 0) x x
| MatchesQuantStop r max x : Matches ic (Quant r 0 max) x x
| MatchesQuantIter r min max x y z :
    Matches ic r x y ->
    (min = 0%nat -> endIndex y <> endIndex x) ->
    Matches ic (Quant r (Nat.pred min) max) y z ->
    Matches ic (Quant r min (S max)) x z.

(** The string [s] contains a match of the pattern [R]. *)
Definition MatchesPattern (R : RegExp) (s : str) : Prop :=
  exists i y, (i <= length s)%nat /\
    Matches (ignoreCase R) (source R) {| endIndex := i; rest := drop i s |} y.

(** Every match of [r1] is a match of [r2]. *)
Definition subRegex (ic : bool) (r1 r2 : Regex) : Prop :=
  forall x y, Matches ic r1 x y -> Matches ic r2 x y.

(** Inclusion of one list of characters in another, as a test. *)
Definition inclb (A B : list char) : bool :=
  forallb (fun a => existsb (N.eqb a) B) A.

(** ** The patterns of the specification *)

Definition bcryptClass_spec : Regex :=
  CharClass [ClassChar (cu "."); ClassChar (cu "/");
             ClassRange (cu "0") (cu "9"); ClassRange (cu "A") (cu "Z");
             ClassRange (cu "a") (cu "z")].

(** ^\$2[abxy]?\$(0[4-9]|[12][0-9]|3[01])\$[./0-9A-Za-z]{53}$ *)
Definition bcryptPattern_spec : RegExp :=
  {| source := SeqOf
       [ AssertBegin;
         PatternChar (cu "$");
         PatternChar (cu "2");
         Optional (CharClass [ClassChar (cu "a"); ClassChar (cu "b");
                              ClassChar (cu "x"); ClassChar (cu "y")]);
         PatternChar (cu "$");
         Group true
           (Disj (Seq (PatternChar (cu "0"))
                      (CharClass [ClassRange (cu "4") (cu "9")]))
           (Disj (Seq (CharClass [ClassChar (cu "1"); ClassChar (cu "2")])
                      (CharClass [ClassRange (cu "0") (cu "9")]))
                 (Seq (PatternChar (cu "3"))
                      (CharClass [ClassChar (cu "0"); ClassChar (cu "1")]))));
         PatternChar (cu "$");
         Exactly 53 bcryptClass_spec;
         AssertEnd ];
     ignoreCase := false |}.

(** ^\$argon2id\$v=(16|19)\$m=\d{1,10},t=\d{1,10},p=\d{1,3}
     (,keyid=[A-Za-z0-9+/]{0,11}(,data=[A-Za-z0-9+/]{0,43})?)?
     \$[A-Za-z0-9+/]{11,64}\$[A-Za-z0-9+/]{16,86}$, case-insensitive *)
Definition argon2Pattern_spec : RegExp :=
  {| source := SeqOf
       [ AssertBegin;
         PatternChar (cu "$"); Literal "argon2id";
         PatternChar (cu "$"); Literal "v=";
         Group true (Disj (Literal "16") (Literal "19"));
         PatternChar (cu "$"); Literal "m="; Quant DigitEscape 1 10;
         Literal ",t="; Quant DigitEscape 1 10;
         Literal ",p="; Quant DigitEscape 1 3;
         Optional (Group true (SeqOf
           [ Literal ",keyid="; Quant base64Class 0 11;
             Optional (Group true (SeqOf
               [ Literal ",data="; Quant base64Class 0 43 ])) ]));
         PatternChar (cu "$"); Quant base64Class 11 64;
         PatternChar (cu "$"); Quant base64Class 16 86;
         AssertEnd ];
     ignoreCase := true |}.

(** The bcrypt format spelled out: [$2], an optional version letter among
    a, b, x, y, [$], a two-digit cost from 04 to 31, [$], and 53 characters
    of the bcrypt alphabet. *)
Definition isDigitChar (c : char) : Prop := 48 <= c <= 57.

Definition isBcryptChar (c : char) : Prop :=
  c = 46 \/ c = 47 \/ (48 <= c <= 57) \/ (65 <= c <= 90) \/ (97 <= c <= 122).

Definition bcryptShape (s : str) : Prop :=
  exists (v : str) (c1 c2 : char) (body : str),
    s = cu "$" :: cu "2" :: v ++ cu "$" :: c1 :: c2 :: cu "$" :: body /\
    (v = [] \/ v = [cu "a"] \/ v = [cu "b"] \/ v = [cu "x"] \/ v = [cu "y"]) /\
    isDigitChar c1 /\ isDigitChar c2 /\
    4 <= 10 * (c1 - 48) + (c2 - 48) <= 31 /\
    length body = 53%nat /\ Forall isBcryptChar body.

(** A hexadecimal character, and a string of exactly [n] of them. *)
Definition isHexChar (c : char) : Prop :=
  (48 <= c <= 57) \/ (65 <= c <= 70) \/ (97 <= c <= 102).

Definition hexString (n : nat) (s : str) : Prop :=
  length s = n /\ Forall isHexChar s.

(** * Properties *)

(** ** The matcher computes the declarative reading *)

Lemma RepeatMatcher_Matches (ic : bool) (r : Regex)
    (m : MatchState -> Continuation -> bool) :
  (forall x c, m x c = true <-> exists y, Matches ic r x y /\ c y = true) ->
  forall max min x c,
    RepeatMatcher m min max x c = true <->
    exists z, Matches ic (Quant r min max) x z /\ c z = true.
Proof.
  intros Hm max. induction max as [|max IH]; intros min x c; simpl.
  - split.
    + intros Hc. exists x. split; [constructor | exact Hc].
    + intros (z & HM & Hc). inversion HM; subst; exact Hc.
  - destruct min as [|k]; simpl.
    + rewrite orb_true_iff, Hm. split.
      * intros [(y & Hxy & Hd) | Hc].
        -- destruct (Nat.eqb (endIndex y) (endIndex x)) eqn:E; [discriminate|].
           apply Nat.eqb_neq in E. apply IH in Hd as (z & Hz & Hc).
           exists z. split; [|exact Hc].
           eapply MatchesQuantIter; eauto.
        -- exists x. split; [apply MatchesQuantStop | exact Hc].
      * intros (z & HM & Hc). inversion HM; subst.
        -- right. exact Hc.
        -- left. exists y. split; [assumption|].
           match goal with H : 0%nat = 0%nat -> _ |- _ => specialize (H eq_refl) end.
           destruct (Nat.eqb (endIndex y) (endIndex x)) eqn:E.
           { apply Nat.eqb_eq in E. contradiction. }
           apply IH. exists z. split; assumption.
    + rewrite Hm. split.
      * intros (y & Hxy & Hd). apply IH in Hd as (z & Hz & Hc).
        exists z. split; [|exact Hc].
        eapply MatchesQuantIter; eauto; discriminate.
      * intros (z & HM & Hc). inversion HM; subst.
        exists y. split; [assumption|]. apply IH. exists z. split; assumption.
Qed.

Lemma CharacterSetMatcher_spec (ic : bool) (A : list char) x c :
  CharacterSetMatcher ic A x c = true <->
  exists ch s, rest x = ch :: s /\ charSetMem ic A ch = true /\
               c (advance x s) = true.
Proof.
  unfold CharacterSetMatcher. destruct (rest x) as [|ch s].
  - split; [discriminate | intros (? & ? & ? & _); discriminate].
  - destruct (charSetMem ic A ch) eqn:E.
    + split; [intros Hc; exists ch, s; auto|].
      intros (ch' & s' & Heq & _ & Hc). injection Heq as -> ->. exact Hc.
    + split; [discriminate|].
      intros (ch' & s' & Heq & Hmem & _). injection Heq as -> ->. congruence.
Qed.

Lemma CompileSubpattern_Matches (ic : bool) (r : Regex) :
  forall x c,
    CompileSubpattern ic r x c = true <->
    exists y, Matches ic r x y /\ c y = true.
Proof.
  induction r as [ | | | a | atoms | | r1 IH1 r2 IH2 | r1 IH1 r2 IH2
                 | cap r IH | r IH min max ]; intros x c; simpl.
  - split; [intros Hc; exists x; split; [constructor|exact Hc]|].
    intros (y & HM & Hc). inversion HM; subst; exact Hc.
  - destruct (Nat.eqb (endIndex x) 0) eqn:E.
    + apply Nat.eqb_eq in E.
      split; [intros Hc; exists x; split; [constructor; exact E|exact Hc]|].
      intros (y & HM & Hc). inversion HM; subst; exact Hc.
    + apply Nat.eqb_neq in E. split; [discriminate|].
      intros (y & HM & Hc). inversion HM; subst; contradiction.
  - destruct (rest x) eqn:E.
    + split; [intros Hc; exists x; split; [constructor; exact E|exact Hc]|].
      intros (y & HM & Hc). inversion HM; subst; exact Hc.
    + split; [discriminate|].
      intros (y & HM & Hc). inversion HM; subst; congruence.
  - rewrite CharacterSetMatcher_spec. split.
    + intros (ch & s & Hr & Hm & Hc). eexists; split; [econstructor; eauto|exact Hc].
    + intros (y & HM & Hc). inversion HM; subst. eauto.
  - rewrite CharacterSetMatcher_spec. split.
    + intros (ch & s & Hr & Hm & Hc). eexists; split; [econstructor; eauto|exact Hc].
    + intros (y & HM & Hc). inversion HM; subst. eauto.
  - rewrite CharacterSetMatcher_spec. split.
    + intros (ch & s & Hr & Hm & Hc). eexists; split; [econstructor; eauto|exact Hc].
    + intros (y & HM & Hc). inversion HM; subst. eauto.
  - rewrite IH1. split.
    + intros (y & H1 & H2). apply IH2 in H2 as (z & H2 & Hc).
      exists z. split; [econstructor; eauto|exact Hc].
    + intros (z & HM & Hc). inversion HM; subst.
      eexists; split; [eassumption|]. apply IH2. eauto.
  - rewrite orb_true_iff, IH1, IH2. split.
    + intros [(y & H1 & Hc) | (y & H2 & Hc)]; exists y; split; auto.
      * apply MatchesDisjL; assumption.
      * apply MatchesDisjR; assumption.
    + intros (y & HM & Hc). inversion HM; subst; eauto.
  - rewrite IH. split.
    + intros (y & H1 & Hc). exists y. split; [constructor; assumption|exact Hc].
    + intros (y & HM & Hc). inversion HM; subst; eauto.
  - apply RepeatMatcher_Matches. exact IH.
Qed.

Lemma RegExpTest_MatchesPattern (R : RegExp) (s : str) :
  RegExpTest R s = true <-> MatchesPattern R s.
Proof.
  unfold RegExpTest, MatchesPattern. rewrite existsb_exists. split.
  - intros (i & Hi & Hm). apply in_seq in Hi.
    apply CompileSubpattern_Matches in Hm as (y & HM & _).
    exists i, y. split; [lia | exact HM].
  - intros (i & y & Hi & HM). exists i. split; [apply in_seq; lia|].
    apply CompileSubpattern_Matches. exists y. split; [exact HM | reflexivity].
Qed.

(** ** Character sets *)

Lemma In_rangeChars (lo hi c : char) :
  In c (rangeChars lo hi) <-> lo <= c <= hi.
Proof.
  unfold rangeChars. rewrite in_map_iff. split.
  - intros (k & <- & Hk). apply in_seq in Hk. lia.
  - intros Hc. exists (N.to_nat (c - lo)). split; [lia|]. apply in_seq. lia.
Qed.

Lemma charSetMem_exact (A : list char) (ch : char) :
  charSetMem false A ch = true <-> In ch A.
Proof.
  unfold charSetMem, Canonicalize. simpl. rewrite existsb_exists. split.
  - intros (a & Ha & E). apply N.eqb_eq in E. subst. exact Ha.
  - intros Ha. exists ch. split; [exact Ha | apply N.eqb_refl].
Qed.

Lemma charSetMem_incl (ic : bool) (A B : list char) (ch : char) :
  incl A B -> charSetMem ic A ch = true -> charSetMem ic B ch = true.
Proof.
  unfold charSetMem. rewrite !existsb_exists.
  intros HAB (a & Ha & E). exists a. split; [apply HAB, Ha | exact E].
Qed.

Lemma inclb_incl (A B : list char) : inclb A B = true -> incl A B.
Proof.
  unfold inclb. rewrite forallb_forall. intros H a Ha.
  specialize (H a Ha). apply existsb_exists in H as (b & Hb & E).
  apply N.eqb_eq in E. subst. exact Hb.
Qed.

(** ** Refinement between patterns *)

Lemma subRegex_refl ic r : subRegex ic r r.
Proof. intros x y H. exact H. Qed.

Lemma subRegex_Seq ic r1 r2 r1' r2' :
  subRegex ic r1 r1' -> subRegex ic r2 r2' ->
  subRegex ic (Seq r1 r2) (Seq r1' r2').
Proof.
  intros H1 H2 x z HM. inversion HM; subst. econstructor; eauto.
Qed.

Lemma subRegex_Disj ic r1 r2 r1' r2' :
  subRegex ic r1 r1' -> subRegex ic r2 r2' ->
  subRegex ic (Disj r1 r2) (Disj r1' r2').
Proof.
  intros H1 H2 x z HM. inversion HM; subst.
  - apply MatchesDisjL; auto.
  - apply MatchesDisjR; auto.
Qed.

Lemma subRegex_Group ic cap cap' r r' :
  subRegex ic r r' -> subRegex ic (Group cap r) (Group cap' r').
Proof.
  intros H x y HM. inversion HM; subst. constructor; auto.
Qed.

Lemma subRegex_Quant ic r r' min max :
  subRegex ic r r' -> subRegex ic (Quant r min max) (Quant r' min max).
Proof.
  intros H. revert min. induction max as [|max IH]; intros min x z HM.
  - inversion HM; subst; constructor.
  - inversion HM; subst.
    + apply MatchesQuantStop.
    + eapply MatchesQuantIter; eauto. apply IH. assumption.
Qed.

Lemma subRegex_CharClass ic atoms atoms' :
  inclb (classChars atoms) (classChars atoms') = true ->
  subRegex ic (CharClass atoms) (CharClass atoms').
Proof.
  intros Hi x y HM. inversion HM; subst. econstructor; eauto.
  eapply charSetMem_incl; [apply inclb_incl, Hi | assumption].
Qed.

Lemma subRegex_Class_Char ic a :
  subRegex ic (CharClass [ClassChar a]) (PatternChar a).
Proof. intros x y HM. inversion HM; subst. econstructor; eauto. Qed.

Lemma subRegex_Char_Class ic a :
  subRegex ic (PatternChar a) (CharClass [ClassChar a]).
Proof. intros x y HM. inversion HM; subst. econstructor; eauto. Qed.

Ltac regex_sub :=
  lazymatch goal with
  | |- subRegex _ (Seq _ _) (Seq _ _) => apply subRegex_Seq; regex_sub
  | |- subRegex _ (Disj _ _) (Disj _ _) => apply subRegex_Disj; regex_sub
  | |- subRegex _ (Group _ _) (Group _ _) => apply subRegex_Group; regex_sub
  | |- subRegex _ (Quant _ _ _) (Quant _ _ _) => apply subRegex_Quant; regex_sub
  | |- subRegex _ (CharClass _) (PatternChar _) => apply subRegex_Class_Char
  | |- subRegex _ (PatternChar _) (CharClass _) => apply subRegex_Char_Class
  | |- subRegex _ (CharClass _) (CharClass _) =>
      apply subRegex_CharClass; vm_compute; reflexivity
  | |- subRegex _ _ _ => apply subRegex_refl
  end.

Lemma MatchesPattern_sub (R R' : RegExp) (s : str) :
  ignoreCase R = ignoreCase R' ->
  subRegex (ignoreCase R) (source R) (source R') ->
  MatchesPattern R s -> MatchesPattern R' s.
Proof.
  intros Hic Hsub (i & y & Hi & HM). exists i, y. split; [exact Hi|].
  rewrite <- Hic. apply Hsub. exact HM.
Qed.

Lemma bcrypt_code_spec (s : str) :
  MatchesPattern bcryptHashPattern s <-> MatchesPattern bcryptPattern_spec s.
Proof.
  split; apply MatchesPattern_sub; try reflexivity;
    cbv [source ignoreCase bcryptHashPattern bcryptPattern_spec SeqOf foldr
         dollarClass Optional Exactly bcryptClass_spec];
    regex_sub.
Qed.

Lemma argon2_code_spec (s : str) :
  MatchesPattern argon2HashPattern s <-> MatchesPattern argon2Pattern_spec s.
Proof.
  split; apply MatchesPattern_sub; try reflexivity;
    cbv [source ignoreCase argon2HashPattern argon2Pattern_spec SeqOf foldr
         Optional];
    regex_sub.
Qed.

(** ** Anchored patterns of a fixed number of class characters *)

Lemma MatchState_eq (x y : MatchState) :
  endIndex x = endIndex y -> rest x = rest y -> x = y.
Proof. destruct x, y; simpl; intros -> ->; reflexivity. Qed.

Lemma Matches_Exactly_CharClass ic atoms n :
  forall x y,
    Matches ic (Quant (CharClass atoms) n n) x y <->
    exists pre,
      rest x = pre ++ rest y /\ length pre = n /\
      endIndex y = (endIndex x + n)%nat /\
      Forall (fun ch => charSetMem ic (classChars atoms) ch = true) pre.
Proof.
  induction n as [|n IH]; intros x y.
  - split.
    + intros HM. exists []. inversion HM; subst; simpl; auto.
    + intros (pre & Hr & Hl & He & _). destruct pre; [|discriminate].
      simpl in Hr. replace y with x; [constructor|].
      apply MatchState_eq; [lia | exact Hr].
  - split.
    + intros HM. inversion HM; subst. simpl in *.
      match goal with H : Matches _ (CharClass _) _ _ |- _ =>
        inversion H; subst end.
      match goal with H : Matches _ (Quant _ _ _) _ _ |- _ =>
        apply IH in H as (pre & Hr & Hl & He & Hall) end.
      simpl in *. exists (ch :: pre). simpl. repeat split.
      * congruence.
      * congruence.
      * lia.
      * constructor; assumption.
    + intros (pre & Hr & Hl & He & Hall). destruct pre as [|ch pre]; [discriminate|].
      simpl in Hr, Hl. inversion Hall; subst.
      eapply MatchesQuantIter with (y := advance x (pre ++ rest y)).
      * econstructor; eauto.
      * discriminate.
      * simpl. apply IH. exists pre. simpl. repeat split; auto; lia.
Qed.

Lemma anchored_class_pattern (atoms : list ClassAtom) (n : nat) (s : str) :
  MatchesPattern
    {| source := SeqOf [AssertBegin; Exactly n (CharClass atoms); AssertEnd];
       ignoreCase := false |} s <->
  length s = n /\ Forall (fun ch => In ch (classChars atoms)) s.
Proof.
  unfold MatchesPattern. cbv [source ignoreCase SeqOf foldr Exactly]. split.
  - intros (i & y & Hi & HM).
    inversion HM as [ | | | | | | r1 r2 x0 y1 z0 H1 H2 | | | | | | ]; subst.
    inversion H1; subst. simpl in *. subst i. rewrite drop_0 in *.
    inversion H2 as [ | | | | | | r1 r2 x0 y2 z0 H3 H4 | | | | | | ]; subst.
    apply Matches_Exactly_CharClass in H3 as (pre & Hr & Hl & He & Hall).
    inversion H4 as [ | | | | | | r1 r2 x0 y3 z0 H5 H6 | | | | | | ]; subst.
    inversion H5; subst. simpl in Hr.
    match goal with H : rest _ = [] |- _ => rewrite H, app_nil_r in Hr end.
    subst pre. split; [reflexivity|].
    eapply Forall_impl; [exact Hall|]. intros ch Hc.
    apply charSetMem_exact. exact Hc.
  - intros [Hl Hall]. exists 0%nat, {| endIndex := n; rest := [] |}.
    split; [lia|]. rewrite drop_0.
    apply MatchesSeq with (y := {| endIndex := 0; rest := s |}).
    { constructor. reflexivity. }
    apply MatchesSeq with (y := {| endIndex := n; rest := [] |}).
    { apply Matches_Exactly_CharClass. exists s. simpl.
      rewrite app_nil_r. repeat split; auto.
      eapply Forall_impl; [exact Hall|]. intros ch Hc.
      apply charSetMem_exact. exact Hc. }
    apply MatchesSeq with (y := {| endIndex := n; rest := [] |}).
    { constructor. reflexivity. }
    constructor.
Qed.

Lemma md5Class_hex (ch : char) :
  In ch (classChars [ClassRange (cu "a") (cu "f"); ClassRange (cu "A") (cu "F");
                     ClassRange (cu "0") (cu "9")]) <-> isHexChar ch.
Proof.
  unfold classChars. cbn [map concat atomChars].
  rewrite !in_app_iff, !In_rangeChars. cbn [In].
  change (cu "a") with 97. change (cu "f") with 102.
  change (cu "A") with 65. change (cu "F") with 70.
  change (cu "0") with 48. change (cu "9") with 57.
  unfold isHexChar. tauto.
Qed.

Lemma shaClass_hex (ch : char) :
  In ch (classChars [ClassRange (cu "A") (cu "F"); ClassRange (cu "a") (cu "f");
                     ClassRange (cu "0") (cu "9")]) <-> isHexChar ch.
Proof.
  unfold classChars. cbn [map concat atomChars].
  rewrite !in_app_iff, !In_rangeChars. cbn [In].
  change (cu "a") with 97. change (cu "f") with 102.
  change (cu "A") with 65. change (cu "F") with 70.
  change (cu "0") with 48. change (cu "9") with 57.
  unfold isHexChar. tauto.
Qed.

Lemma isMD5_hexString (data : Data) :
  isMD5 data = true <-> hexString 32 (toString data).
Proof.
  unfold isMD5, md5HashPattern, hexString.
  rewrite RegExpTest_MatchesPattern, anchored_class_pattern.
  split; intros [Hl Hall]; (split; [exact Hl|]);
    (eapply Forall_impl; [exact Hall|]); intros ch; apply md5Class_hex.
Qed.

Lemma isSHA1_hexString (data : Data) :
  isSHA1 data = true <-> hexString 40 (toString data).
Proof.
  unfold isSHA1, sha1HashPattern, hexClass, hexString.
  rewrite RegExpTest_MatchesPattern, anchored_class_pattern.
  split; intros [Hl Hall]; (split; [exact Hl|]);
    (eapply Forall_impl; [exact Hall|]); intros ch; apply shaClass_hex.
Qed.

Lemma isSHA256_hexString (data : Data) :
  isSHA256 data = true <-> hexString 64 (toString data).
Proof.
  unfold isSHA256, sha256HashPattern, hexClass, hexString.
  rewrite RegExpTest_MatchesPattern, anchored_class_pattern.
  split; intros [Hl Hall]; (split; [exact Hl|]);
    (eapply Forall_impl; [exact Hall|]); intros ch; apply shaClass_hex.
Qed.

(** ** The bcrypt pattern spelled out *)

Lemma Matches_Seq_inv ic r1 r2 x z :
  Matches ic (Seq r1 r2) x z <->
  exists y, Matches ic r1 x y /\ Matches ic r2 y z.
Proof.
  split.
  - intros H. inversion H; subst. eauto.
  - intros (y & H1 & H2). econstructor; eauto.
Qed.

Lemma Matches_Char_exact (a : char) x y :
  Matches false (PatternChar a) x y <->
  rest x = a :: rest y /\ endIndex y = S (endIndex x).
Proof.
  split.
  - intros H. inversion H as [ | | | a0 x0 ch s Hr Hm | | | | | | | | | ]; subst.
    apply charSetMem_exact in Hm as [<- | []]. auto.
  - intros [Hr He].
    replace y with (advance x (rest y)) by (apply MatchState_eq; simpl; auto).
    econstructor; [exact Hr|]. apply charSetMem_exact. left. reflexivity.
Qed.

Lemma Matches_Class_exact (atoms : list ClassAtom) x y :
  Matches false (CharClass atoms) x y <->
  exists ch, rest x = ch :: rest y /\ endIndex y = S (endIndex x) /\
             In ch (classChars atoms).
Proof.
  split.
  - intros H. inversion H as [ | | | | at0 x0 ch s Hr Hm | | | | | | | | ]; subst.
    apply charSetMem_exact in Hm. exists ch. auto.
  - intros (ch & Hr & He & Hin).
    replace y with (advance x (rest y)) by (apply MatchState_eq; simpl; auto).
    econstructor; [exact Hr|]. apply charSetMem_exact. exact Hin.
Qed.

Lemma Matches_Optional_inv ic r x y :
  Matches ic (Optional r) x y <->
  y = x \/ (Matches ic r x y /\ endIndex y <> endIndex x).
Proof.
  unfold Optional. split.
  - intros H. inversion H as [ | | | | | | | | | | | r0 mx x0
                              | r0 mn mx x0 y0 z0 H1 Hne H2 ]; subst.
    + left. reflexivity.
    + right. inversion H2; subst; auto.
  - intros [-> | [H Hne]].
    + apply MatchesQuantStop.
    + eapply MatchesQuantIter; [exact H | auto | apply MatchesQuantZero].
Qed.

Lemma bcryptChar_class (ch : char) :
  In ch (classChars [ClassChar (cu "."); ClassChar (cu "/");
                     ClassRange (cu "0") (cu "9"); ClassRange (cu "A") (cu "Z");
                     ClassRange (cu "a") (cu "z")]) <-> isBcryptChar ch.
Proof.
  unfold classChars. cbn [map concat atomChars].
  rewrite !in_app_iff, !In_rangeChars. cbn [In].
  change (cu ".") with 46. change (cu "/") with 47.
  change (cu "0") with 48. change (cu "9") with 57.
  change (cu "A") with 65. change (cu "Z") with 90.
  change (cu "a") with 97. change (cu "z") with 122.
  unfold isBcryptChar. intuition lia.
Qed.

Lemma version_class (ch : char) :
  In ch (classChars [ClassChar (cu "a"); ClassChar (cu "b");
                     ClassChar (cu "x"); ClassChar (cu "y")]) <->
  ch = cu "a" \/ ch = cu "b" \/ ch = cu "x" \/ ch = cu "y".
Proof. unfold classChars. cbn [map concat atomChars app In]. intuition. Qed.

(** The cost group [(0[4-9]|[12][0-9]|3[01])]. *)
Lemma cost_group (cap : bool) x y :
  Matches false
    (Group cap
       (Disj (Seq (PatternChar (cu "0"))
                  (CharClass [ClassRange (cu "4") (cu "9")]))
       (Disj (Seq (CharClass [ClassChar (cu "1"); ClassChar (cu "2")])
                  (CharClass [ClassRange (cu "0") (cu "9")]))
             (Seq (PatternChar (cu "3"))
                  (CharClass [ClassChar (cu "0"); ClassChar (cu "1")]))))) x y <->
  exists c1 c2,
    rest x = c1 :: c2 :: rest y /\ endIndex y = S (S (endIndex x)) /\
    isDigitChar c1 /\ isDigitChar c2 /\
    4 <= 10 * (c1 - 48) + (c2 - 48) <= 31.
Proof.
  unfold isDigitChar. split.
  - intros H. inversion H as [ | | | | | | | | | cp r x0 y0 HD | | | ]; subst.
    inversion HD as [ | | | | | | | r1 r2 x0 y0 H1 | r1 r2 x0 y0 H2 | | | | ];
      subst.
    + apply Matches_Seq_inv in H1 as (m & Ha & Hb).
      apply Matches_Char_exact in Ha as [Hr1 He1].
      apply Matches_Class_exact in Hb as (c2 & Hr2 & He2 & Hin).
      unfold classChars in Hin. cbn [map concat atomChars app] in Hin.
      rewrite app_nil_r in Hin. apply In_rangeChars in Hin.
      change (cu "4") with 52 in Hin. change (cu "9") with 57 in Hin.
      exists (cu "0"), c2. rewrite Hr1, Hr2, He2, He1.
      change (cu "0") with 48. repeat split; lia.
    + inversion H2 as [ | | | | | | | r1 r2 x0 y0 H3 | r1 r2 x0 y0 H4 | | | | ];
        subst.
      * apply Matches_Seq_inv in H3 as (m & Ha & Hb).
        apply Matches_Class_exact in Ha as (c1 & Hr1 & He1 & Hin1).
        apply Matches_Class_exact in Hb as (c2 & Hr2 & He2 & Hin2).
        unfold classChars in Hin1, Hin2.
        cbn [map concat atomChars app] in Hin1, Hin2.
        rewrite app_nil_r in Hin2. apply In_rangeChars in Hin2.
        change (cu "0") with 48 in Hin2. change (cu "9") with 57 in Hin2.
        exists c1, c2. rewrite Hr1, Hr2, He2, He1.
        destruct Hin1 as [<- | [<- | []]];
          [change (cu "1") with 49 | change (cu "2") with 50];
          repeat split; lia.
      * apply Matches_Seq_inv in H4 as (m & Ha & Hb).
        apply Matches_Char_exact in Ha as [Hr1 He1].
        apply Matches_Class_exact in Hb as (c2 & Hr2 & He2 & Hin).
        unfold classChars in Hin. cbn [map concat atomChars app] in Hin.
        exists (cu "3"), c2. rewrite Hr1, Hr2, He2, He1.
        destruct Hin as [<- | [<- | []]];
          change (cu "3") with 51;
          [change (cu "0") with 48 | change (cu "1") with 49];
          repeat split; lia.
  - intros (c1 & c2 & Hr & He & Hd1 & Hd2 & Hcost).
    pose (m := {| endIndex := S (endIndex x); rest := c2 :: rest y |}).
    assert (Hc1 : c1 = 48 \/ (c1 = 49 \/ c1 = 50) \/ c1 = 51) by lia.
    constructor. destruct Hc1 as [-> | [Hc1 | ->]].
    + apply MatchesDisjL. apply Matches_Seq_inv. exists m. split.
      * apply Matches_Char_exact. unfold m; cbn [rest endIndex]. auto.
      * apply Matches_Class_exact. exists c2. unfold m; cbn [rest endIndex]. repeat split; auto.
        unfold classChars. cbn [map concat atomChars app].
        rewrite app_nil_r. apply In_rangeChars.
        change (cu "4") with 52. change (cu "9") with 57. lia.
    + apply MatchesDisjR, MatchesDisjL. apply Matches_Seq_inv. exists m. split.
      * apply Matches_Class_exact. exists c1. unfold m; cbn [rest endIndex]. repeat split; auto.
        unfold classChars. cbn [map concat atomChars app In].
        change (cu "1") with 49. change (cu "2") with 50. intuition.
      * apply Matches_Class_exact. exists c2. unfold m; cbn [rest endIndex]. repeat split; auto.
        unfold classChars. cbn [map concat atomChars app].
        rewrite app_nil_r. apply In_rangeChars.
        change (cu "0") with 48. change (cu "9") with 57. lia.
    + apply MatchesDisjR, MatchesDisjR. apply Matches_Seq_inv. exists m. split.
      * apply Matches_Char_exact. unfold m; cbn [rest endIndex]. auto.
      * apply Matches_Class_exact. exists c2. unfold m; cbn [rest endIndex]. repeat split; auto.
        unfold classChars. cbn [map concat atomChars app In].
        change (cu "0") with 48. change (cu "1") with 49.
        assert (c2 = 48 \/ c2 = 49) by lia. intuition.
Qed.

Lemma Matches_Begin_inv ic x y :
  Matches ic AssertBegin x y <-> y = x /\ endIndex x = 0%nat.
Proof.
  split.
  - intros H. inversion H; subst. auto.
  - intros [-> H]. constructor. exact H.
Qed.

Lemma Matches_End_inv ic x y :
  Matches ic AssertEnd x y <-> y = x /\ rest x = [].
Proof.
  split.
  - intros H. inversion H; subst. auto.
  - intros [-> H]. constructor. exact H.
Qed.

Lemma charSetMem_single (a : char) : charSetMem false [a] a = true.
Proof. apply charSetMem_exact. left. reflexivity. Qed.

Lemma bcryptPattern_spec_shape (s : str) :
  MatchesPattern bcryptPattern_spec s <-> bcryptShape s.
Proof.
  unfold MatchesPattern, bcryptShape.
  cbv [source ignoreCase bcryptPattern_spec SeqOf foldr Exactly bcryptClass_spec].
  split.
  - intros (i & y & Hi & HM).
    apply Matches_Seq_inv in HM as (y0 & Hb & HM).
    apply Matches_Begin_inv in Hb as [-> Hz].
    cbn [endIndex] in Hz. subst i. rewrite drop_0 in HM.
    apply Matches_Seq_inv in HM as (y1 & H1 & HM).
    apply Matches_Char_exact in H1 as [Hr1 _]. cbn [rest] in Hr1.
    apply Matches_Seq_inv in HM as (y2 & H2 & HM).
    apply Matches_Char_exact in H2 as [Hr2 _].
    apply Matches_Seq_inv in HM as (y3 & H3 & HM).
    apply Matches_Seq_inv in HM as (y4 & H4 & HM).
    apply Matches_Char_exact in H4 as [Hr4 _].
    apply Matches_Seq_inv in HM as (y5 & H5 & HM).
    apply cost_group in H5 as (c1 & c2 & Hr5 & _ & Hd1 & Hd2 & Hcost).
    apply Matches_Seq_inv in HM as (y6 & H6 & HM).
    apply Matches_Char_exact in H6 as [Hr6 _].
    apply Matches_Seq_inv in HM as (y7 & H7 & HM).
    apply Matches_Exactly_CharClass in H7 as (body & Hr7 & Hlen & _ & Hall).
    apply Matches_Seq_inv in HM as (y8 & H8 & HM).
    apply Matches_End_inv in H8 as [_ Hnil].
    rewrite Hnil, app_nil_r in Hr7.
    assert (Hbody : Forall isBcryptChar body).
    { eapply Forall_impl; [exact Hall|]. intros ch Hc.
      apply bcryptChar_class, charSetMem_exact, Hc. }
    apply Matches_Optional_inv in H3 as [-> | [H3 _]].
    + exists [], c1, c2, body. cbn [app].
      rewrite Hr1, Hr2, Hr4, Hr5, Hr6, Hr7. auto 10.
    + apply Matches_Class_exact in H3 as (v & Hr3 & _ & Hv).
      apply version_class in Hv.
      exists [v], c1, c2, body. cbn [app].
      rewrite Hr1, Hr2, Hr3, Hr4, Hr5, Hr6, Hr7.
      split; [reflexivity|]. split; [right; intuition congruence | auto 10].
  - intros (v & c1 & c2 & body & -> & Hv & Hd1 & Hd2 & Hcost & Hlen & Hall).
    match goal with
    | |- exists i y, _ /\
           Matches false (Seq _ (Seq _ (Seq _ (Seq ?o ?t)))) _ _ =>
        set (O := o); set (T := t)
    end.
    assert (Htail : forall n,
      Matches false T
        {| endIndex := n; rest := cu "$" :: c1 :: c2 :: cu "$" :: body |}
        {| endIndex := n + 57; rest := [] |}).
    { intros n. subst T.
      eapply MatchesSeq;
        [eapply MatchesChar; [reflexivity | apply charSetMem_single]|].
      cbn [advance endIndex rest].
      apply MatchesSeq
        with (y := {| endIndex := S (S (S n)); rest := cu "$" :: body |}).
      { apply cost_group. exists c1, c2. cbn [rest endIndex]. auto 10. }
      eapply MatchesSeq;
        [eapply MatchesChar; [reflexivity | apply charSetMem_single]|].
      cbn [advance endIndex rest].
      apply MatchesSeq with (y := {| endIndex := n + 57; rest := [] |}).
      { apply Matches_Exactly_CharClass. exists body.
        cbn [advance rest endIndex]. rewrite app_nil_r.
        split; [reflexivity|]. split; [exact Hlen|]. split; [lia|].
        eapply Forall_impl; [exact Hall|]. intros ch Hc.
        apply charSetMem_exact, bcryptChar_class, Hc. }
      eapply MatchesSeq; [constructor; reflexivity | constructor]. }
    assert (Hopt : exists k,
      Matches false O
        {| endIndex := 2;
           rest := v ++ cu "$" :: c1 :: c2 :: cu "$" :: body |}
        {| endIndex := k; rest := cu "$" :: c1 :: c2 :: cu "$" :: body |}).
    { subst O. destruct Hv as [-> | Hv].
      - exists 2%nat. apply Matches_Optional_inv. left. reflexivity.
      - assert (Hc : exists c, v = [c] /\
                  (c = cu "a" \/ c = cu "b" \/ c = cu "x" \/ c = cu "y")).
        { destruct Hv as [-> | [-> | [-> | ->]]]; eexists; split;
            try reflexivity; auto. }
        destruct Hc as (c & -> & Hc). cbn [app].
        exists 3%nat. apply Matches_Optional_inv. right. split.
        + eapply (MatchesClass false _ {| endIndex := 2; rest := _ |});
            [reflexivity|].
          apply charSetMem_exact, version_class, Hc.
        + cbn [endIndex]. lia. }
    destruct Hopt as (k & Hopt).
    exists 0%nat, {| endIndex := k + 57; rest := [] |}.
    split; [lia|]. rewrite drop_0.
    eapply MatchesSeq; [constructor; reflexivity|].
    eapply MatchesSeq;
      [eapply MatchesChar; [reflexivity | apply charSetMem_single]|].
    eapply MatchesSeq;
      [eapply MatchesChar; [reflexivity | apply charSetMem_single]|].
    cbn [advance endIndex rest].
    eapply MatchesSeq; [exact Hopt | apply Htail].
Qed.

(** [isBcrypt] accepts exactly the strings of the bcrypt shape. *)
Lemma isBcrypt_shape (data : Data) :
  isBcrypt data = true <-> bcryptShape (toString data).
Proof.
  unfold isBcrypt.
  rewrite RegExpTest_MatchesPattern, bcrypt_code_spec.
  apply bcryptPattern_spec_shape.
Qed.

(** ** Case folding *)

Lemma asciiUpper_lt (a : char) : a < 128 -> asciiUpper a < 128.
Proof.
  unfold asciiUpper. intros Ha.
  destruct ((97 <=? a) && (a <=? 122)) eqn:E; [|exact Ha].
  apply andb_true_iff in E as [E1 E2].
  apply N.leb_le in E1. apply N.leb_le in E2. lia.
Qed.

Lemma Canonicalize_ascii (a : char) :
  a < 128 -> Canonicalize true a = asciiUpper a.
Proof.
  intros Ha. unfold Canonicalize, toUpperCase. simpl.
  destruct (a <? 128) eqn:E; [|apply N.ltb_ge in E; lia].
  destruct (128 <=? a) eqn:E'; [apply N.leb_le in E'; lia|]. reflexivity.
Qed.

Lemma Canonicalize_non_ascii (ch : char) :
  128 <= ch -> 128 <= Canonicalize true ch.
Proof.
  intros Hch. unfold Canonicalize, toUpperCase. simpl.
  destruct (ch <? 128) eqn:E; [apply N.ltb_lt in E; lia|].
  destruct (unicodeUpper ch) as [|cuv [|? ?]]; try exact Hch.
  destruct (128 <=? ch) eqn:E1; [|apply N.leb_gt in E1; lia]. simpl.
  destruct (cuv <? 128) eqn:E2; [exact Hch|]. apply N.ltb_ge in E2. exact E2.
Qed.

Lemma charSetMem_fold_ascii (a ch : char) :
  a < 128 -> charSetMem true [a] ch = true ->
  ch < 128 /\ asciiUpper ch = asciiUpper a.
Proof.
  intros Ha. unfold charSetMem. simpl. rewrite orb_false_r.
  intros E. apply N.eqb_eq in E. rewrite (Canonicalize_ascii a Ha) in E.
  destruct (N.lt_ge_cases ch 128) as [Hlt | Hge].
  - split; [exact Hlt|]. rewrite (Canonicalize_ascii ch Hlt) in E. congruence.
  - apply Canonicalize_non_ascii in Hge. pose proof (asciiUpper_lt a Ha). lia.
Qed.

(** ** Leading characters of the accepted strings *)

Lemma Matches_leading_chars ic (a b : char) (r : Regex) (i : nat) (s : str) y :
  Matches ic (Seq AssertBegin (Seq (PatternChar a) (Seq (PatternChar b) r)))
    {| endIndex := i; rest := drop i s |} y ->
  exists c1 c2 t,
    s = c1 :: c2 :: t /\
    charSetMem ic [a] c1 = true /\ charSetMem ic [b] c2 = true.
Proof.
  intros HM.
  inversion HM as [ | | | | | | r1 r2 x0 y1 z0 H1 H2 | | | | | | ]; subst.
  inversion H1 as [ | x0 Hi | | | | | | | | | | | ]; subst.
  cbn [endIndex] in Hi. subst i. rewrite drop_0 in H2.
  inversion H2 as [ | | | | | | r1 r2 x0 y2 z0 H3 H4 | | | | | | ]; subst.
  inversion H3 as [ | | | a0 x0 c1 s1 Hr1 Hm1 | | | | | | | | | ]; subst.
  inversion H4 as [ | | | | | | r1 r2 x0 y3 z0 H5 H6 | | | | | | ]; subst.
  inversion H5 as [ | | | a0 x0 c2 s2 Hr2 Hm2 | | | | | | | | | ]; subst.
  cbn [rest advance] in Hr1, Hr2. exists c1, c2, s2. subst. auto.
Qed.

Lemma isBcrypt_prefix (data : Data) :
  isBcrypt data = true ->
  exists t, toString data = cu "$" :: cu "2" :: t.
Proof.
  unfold isBcrypt. rewrite RegExpTest_MatchesPattern, bcrypt_code_spec.
  intros (i & y & Hi & HM).
  cbv [source ignoreCase bcryptPattern_spec SeqOf foldr] in HM.
  apply Matches_leading_chars in HM as (c1 & c2 & t & Hs & H1 & H2).
  apply charSetMem_exact in H1 as [<- | []].
  apply charSetMem_exact in H2 as [<- | []].
  exists t. exact Hs.
Qed.

Lemma asciiUpper_dollar (c : char) :
  asciiUpper c = asciiUpper (cu "$") -> c = cu "$".
Proof.
  change (asciiUpper (cu "$")) with 36. change (cu "$") with 36.
  unfold asciiUpper.
  destruct ((97 <=? c) && (c <=? 122)) eqn:E; [|auto].
  apply andb_true_iff in E as [E1 E2].
  apply N.leb_le in E1. apply N.leb_le in E2. lia.
Qed.

Lemma isArgon2_prefix (data : Data) :
  isArgon2 data = true ->
  exists c t, toString data = cu "$" :: c :: t /\ asciiUpper c = cu "A".
Proof.
  unfold isArgon2. rewrite RegExpTest_MatchesPattern.
  intros (i & y & Hi & HM).
  cbv [source ignoreCase argon2HashPattern SeqOf foldr] in HM.
  change (Literal "argon2id")
    with (Seq (PatternChar (cu "a")) (Literal "rgon2id")) in HM.
  assert (Hassoc : forall r1 r2 r3 x z,
             Matches true (Seq (Seq r1 r2) r3) x z ->
             Matches true (Seq r1 (Seq r2 r3)) x z).
  { intros r1 r2 r3 x z H. inversion H; subst.
    match goal with H' : Matches _ (Seq r1 r2) _ _ |- _ =>
      inversion H'; subst end.
    repeat (econstructor; eauto). }
  inversion HM as [ | | | | | | ra rb x0 y1 z0 H1 H2 | | | | | | ]; subst.
  inversion H2 as [ | | | | | | ra rb x0 y2 z0 H3 H4 | | | | | | ]; subst.
  apply Hassoc in H4.
  pose proof (MatchesSeq _ _ _ _ _ _ H1 (MatchesSeq _ _ _ _ _ _ H3 H4)) as HM'.
  apply Matches_leading_chars in HM' as (c1 & c2 & t & Hs & Hc1 & Hc2).
  apply charSetMem_fold_ascii in Hc1 as [_ Hc1]; [|reflexivity].
  apply charSetMem_fold_ascii in Hc2 as [_ Hc2]; [|reflexivity].
  apply asciiUpper_dollar in Hc1. subst c1.
  exists c2, t. split; [exact Hs | exact Hc2].
Qed.

Lemma hexString_head (n : nat) (c : char) (t : str) :
  hexString n (c :: t) -> isHexChar c.
Proof. intros [_ Hall]. inversion Hall; assumption. Qed.

Lemma dollar_not_hex : ~ isHexChar (cu "$").
Proof. change (cu "$") with 36. unfold isHexChar. lia. Qed.

(** ** The classifiers against the patterns of the specification *)

Example isBcrypt_scenario :
  isBcrypt (DString (lit "$2b$10$" ++ repeat (cu "A") 53)) = true /\
  isBcrypt (DString (lit "not-a-hash")) = false /\
  isMD5 (DString (lit "5d41402abc4b2a76b9719d911017c592")) = true.
Proof. vm_compute. auto. Qed.

Example isArgon2_scenario :
  isArgon2 (DString (lit
    "$argon2id$v=19$m=65536,t=3,p=4$c29tZXNhbHRzb21lc2FsdA$RdescudvJCsgt3ub+b+dWRWJTmaaJObG"))
    = true /\
  isArgon2 (DString (lit
    "$ARGON2ID$V=19$M=65536,T=3,P=4,KEYID=abc,DATA=$c29tZXNhbHRzb21lc2FsdA$RdescudvJCsgt3ub+b+dWRWJTmaaJObG"))
    = true /\
  isArgon2 (DString (lit
    "$argon2i$v=19$m=65536,t=3,p=4$c29tZXNhbHRzb21lc2FsdA$RdescudvJCsgt3ub+b+dWRWJTmaaJObG"))
    = false /\
  isArgon2 (DString (lit
    "x$argon2id$v=19$m=65536,t=3,p=4$c29tZXNhbHRzb21lc2FsdA$RdescudvJCsgt3ub+b+dWRWJTmaaJObG"))
    = false.
Proof. vm_compute. auto. Qed.

(** C1. For every string [s], [isBcrypt(s)] is true exactly when [s]
    matches the bcrypt pattern of the specification, [isArgon2(s)] exactly
    when [s] matches the case-insensitive PHC pattern, and [isMD5],
    [isSHA1], [isSHA256] exactly when [s] consists of 32, 40 and 64
    hexadecimal characters. *)
Theorem C1_classifiers_decide_their_patterns (s : str) :
  (isBcrypt (DString s) = true <-> MatchesPattern bcryptPattern_spec s) /\
  (isArgon2 (DString s) = true <-> MatchesPattern argon2Pattern_spec s) /\
  (isMD5 (DString s) = true <-> hexString 32 s) /\
  (isSHA1 (DString s) = true <-> hexString 40 s) /\
  (isSHA256 (DString s) = true <-> hexString 64 s).
Proof.
  split; [|split; [|split; [|split]]].
  - unfold isBcrypt. rewrite RegExpTest_MatchesPattern. apply bcrypt_code_spec.
  - unfold isArgon2. rewrite RegExpTest_MatchesPattern. apply argon2_code_spec.
  - apply (isMD5_hexString (DString s)).
  - apply (isSHA1_hexString (DString s)).
  - apply (isSHA256_hexString (DString s)).
Qed.

(** A Buffer is classified by its decoded text. *)
Lemma classifiers_on_Buffer (b : list N) :
  isBcrypt (DBuffer b) = isBcrypt (DString (bufferToString b)) /\
  isArgon2 (DBuffer b) = isArgon2 (DString (bufferToString b)) /\
  isMD5 (DBuffer b) = isMD5 (DString (bufferToString b)) /\
  isSHA1 (DBuffer b) = isSHA1 (DString (bufferToString b)) /\
  isSHA256 (DBuffer b) = isSHA256 (DString (bufferToString b)).
Proof.
  unfold isBcrypt, isArgon2, isMD5, isSHA1, isSHA256. cbn [toString]. auto.
Qed.

(** ** Exclusivity *)

Lemma hex_lengths_exclusive (n m : nat) (s : str) :
  n <> m -> hexString n s -> hexString m s -> False.
Proof. intros Hne [Hn _] [Hm _]. congruence. Qed.

Lemma dollar_string_not_hex (n : nat) (s t : str) :
  s = cu "$" :: t -> hexString n s -> False.
Proof.
  intros -> H. apply hexString_head in H. exact (dollar_not_hex H).
Qed.

(** C9. No input is accepted by two different classifiers: the three
    hexadecimal classifiers require different lengths, a string accepted by
    [isBcrypt] or [isArgon2] starts with a dollar sign, which is not a
    hexadecimal character, and the second character separates bcrypt from
    Argon2. *)
Theorem C9_classifiers_pairwise_exclusive (data : Data) :
  isMD5 data && isSHA1 data = false /\
  isMD5 data && isSHA256 data = false /\
  isSHA1 data && isSHA256 data = false /\
  isBcrypt data && isMD5 data = false /\
  isBcrypt data && isSHA1 data = false /\
  isBcrypt data && isSHA256 data = false /\
  isArgon2 data && isMD5 data = false /\
  isArgon2 data && isSHA1 data = false /\
  isArgon2 data && isSHA256 data = false /\
  isBcrypt data && isArgon2 data = false.
Proof.
  assert (Hhex : forall f g n m,
             (f data = true <-> hexString n (toString data)) ->
             (g data = true <-> hexString m (toString data)) ->
             n <> m -> f data && g data = false).
  { intros f g n m Hf Hg Hne. apply not_true_is_false. intros H.
    apply andb_true_iff in H as [H1 H2]. apply Hf in H1. apply Hg in H2.
    exact (hex_lengths_exclusive n m _ Hne H1 H2). }
  assert (Hb : forall g n,
             (g data = true <-> hexString n (toString data)) ->
             isBcrypt data && g data = false).
  { intros g n Hg. apply not_true_is_false. intros H.
    apply andb_true_iff in H as [H1 H2]. apply Hg in H2.
    apply isBcrypt_prefix in H1 as (t & Ht).
    exact (dollar_string_not_hex n _ _ Ht H2). }
  assert (Ha : forall g n,
             (g data = true <-> hexString n (toString data)) ->
             isArgon2 data && g data = false).
  { intros g n Hg. apply not_true_is_false. intros H.
    apply andb_true_iff in H as [H1 H2]. apply Hg in H2.
    apply isArgon2_prefix in H1 as (c & t & Ht & _).
    exact (dollar_string_not_hex n _ _ Ht H2). }
  pose proof (isMD5_hexString data) as Hmd5.
  pose proof (isSHA1_hexString data) as Hsha1.
  pose proof (isSHA256_hexString data) as Hsha256.
  repeat split.
  - apply (Hhex _ _ _ _ Hmd5 Hsha1). lia.
  - apply (Hhex _ _ _ _ Hmd5 Hsha256). lia.
  - apply (Hhex _ _ _ _ Hsha1 Hsha256). lia.
  - apply (Hb _ _ Hmd5).
  - apply (Hb _ _ Hsha1).
  - apply (Hb _ _ Hsha256).
  - apply (Ha _ _ Hmd5).
  - apply (Ha _ _ Hsha1).
  - apply (Ha _ _ Hsha256).
  - apply not_true_is_false. intros H.
    apply andb_true_iff in H as [H1 H2].
    apply isBcrypt_prefix in H1 as (t & Ht).
    apply isArgon2_prefix in H2 as (c & t' & Ht' & Hc).
    rewrite Ht in Ht'. injection Ht' as <- _.
    vm_compute in Hc. discriminate Hc.
Qed.

(** ** The dispatcher of the IsHashed validator *)

Ltac distinct_keys :=
  let H := fresh in intros H; vm_compute in H; discriminate H.

Lemma validationTable_lookup (value key : str) :
  validationTable value !! key =
    if decide (lit "bcrypt" = key) then Some (JBool (isBcrypt (DString value)))
    else if decide (lit "argon2" = key) then Some (JBool (isArgon2 (DString value)))
    else if decide (lit "md5" = key) then Some (JBool (isMD5 (DString value)))
    else if decide (lit "sha1" = key) then Some (JBool (isSHA1 (DString value)))
    else if decide (lit "sha256" = key) then Some (JBool (isSHA256 (DString value)))
    else if decide (lit "default" = key) then Some (JBool false)
    else None.
Proof.
  unfold validationTable. rewrite !lookup_insert, lookup_empty. reflexivity.
Qed.

(** For each recognized type name the dispatcher returns the result of the
    corresponding classifier. *)
Lemma mapValidationByHashType_recognized (value : str) :
  mapValidationByHashType (lit "bcrypt") value = JBool (isBcrypt (DString value)) /\
  mapValidationByHashType (lit "argon2") value = JBool (isArgon2 (DString value)) /\
  mapValidationByHashType (lit "md5") value = JBool (isMD5 (DString value)) /\
  mapValidationByHashType (lit "sha1") value = JBool (isSHA1 (DString value)) /\
  mapValidationByHashType (lit "sha256") value = JBool (isSHA256 (DString value)).
Proof.
  unfold mapValidationByHashType, getProperty.
  rewrite !validationTable_lookup.
  repeat split;
    repeat (first [ rewrite decide_True by reflexivity
                  | rewrite decide_False by distinct_keys ]);
    reflexivity.
Qed.

(** The only key of the table that yields [false] by itself is the
    property named "default". *)
Lemma mapValidationByHashType_default (value : str) :
  mapValidationByHashType (lit "default") value = JBool false.
Proof.
  unfold mapValidationByHashType, getProperty.
  rewrite validationTable_lookup.
  repeat (first [ rewrite decide_True by reflexivity
                | rewrite decide_False by distinct_keys ]).
  reflexivity.
Qed.

(** A name that is neither a key of the table nor a property of
    [Object.prototype] yields [undefined]. *)
Lemma mapValidationByHashType_missing (type value : str) :
  type ∉ [lit "bcrypt"; lit "argon2"; lit "md5"; lit "sha1"; lit "sha256";
          lit "default"] ->
  type ∉ objectPrototypeNames ->
  mapValidationByHashType type value = JUndefined.
Proof.
  intros Hkeys Hproto. unfold mapValidationByHashType, getProperty.
  rewrite validationTable_lookup.
  repeat (rewrite decide_False;
    [| intros <-; apply Hkeys; repeat constructor ]).
  rewrite bool_decide_false by exact Hproto. reflexivity.
Qed.

(** An inherited property name yields a built-in value, which is not a
    boolean. *)
Lemma mapValidationByHashType_inherited (value : str) :
  mapValidationByHashType (lit "constructor") value =
    JFunction (OtherClass (lit "Object")) /\
  mapValidationByHashType (lit "toString") value = JBuiltin (lit "toString").
Proof.
  unfold mapValidationByHashType, getProperty.
  rewrite validationTable_lookup.
  split; repeat (rewrite decide_False by distinct_keys); reflexivity.
Qed.

(** Without a type the validator checks [isBcrypt(value) || isArgon2(value)];
    with a type it dispatches. *)
Lemma validate_string (type : option str) (value : str) :
  validate type (JString value) =
    if typeIsFalsy type
    then JBool (isBcrypt (DString value) || isArgon2 (DString value))
    else mapValidationByHashType (default [] type) value.
Proof. reflexivity. Qed.

Lemma validate_no_type (value : str) :
  validate None (JString value) =
    JBool (isBcrypt (DString value) || isArgon2 (DString value)).
Proof. reflexivity. Qed.

Example validate_scenario :
  validate (Some (lit "md5")) (JString (lit "5d41402abc4b2a76b9719d911017c592"))
    = JBool true /\
  validate (Some (lit "sha1")) (JString (lit "5d41402abc4b2a76b9719d911017c592"))
    = JBool false /\
  validate None (JString (lit "5d41402abc4b2a76b9719d911017c592"))
    = JBool false /\
  validate (Some (lit "md5")) (JNumber 5) = JBool false.
Proof. vm_compute. auto. Qed.

(** C3. The dispatcher at an unrecognized type name: the lookup in the
    object literal finds no property and the result is [undefined], not
    [false], although the literal carries a [default: false] entry. *)
Theorem C3_unrecognized_type_yields_undefined (value : str) :
  mapValidationByHashType (lit "unknown-type") value = JUndefined /\
  validate (Some (lit "unknown-type")) (JString value) = JUndefined /\
  validate (Some (lit "unknown-type")) (JString value) <> JBool false.
Proof.
  assert (H : mapValidationByHashType (lit "unknown-type") value = JUndefined).
  { apply mapValidationByHashType_missing;
      apply (bool_decide_unpack _); vm_compute; exact I. }
  change (validate (Some (lit "unknown-type")) (JString value))
    with (mapValidationByHashType (lit "unknown-type") value).
  rewrite H. repeat split. discriminate.
Qed.

Lemma validate_non_string (type : option str) (value : JsValue) :
  typeof value <> TyString -> validate type value = JBool false.
Proof.
  intros H. unfold validate. rewrite bool_decide_true by exact H. reflexivity.
Qed.

(** C8. The validator returns [false] for every value that is not a
    string, whatever type was configured. *)
Theorem C8_validate_rejects_non_strings (type : option str) (value : JsValue) :
  typeof value <> TyString -> validate type value = JBool false.
Proof. apply validate_non_string. Qed.

Lemma typeof_string (value : JsValue) :
  typeof value = TyString -> exists s, value = JString s.
Proof.
  destruct value; try discriminate; [eauto|].
  cbn [typeof]. destruct (bool_decide (name = lit "__proto__")); discriminate.
Qed.

(** Only a string validates. *)
Lemma validate_true_is_string (type : option str) (value : JsValue) :
  validate type value = JBool true -> exists s, value = JString s.
Proof.
  intros H. destruct (decide (typeof value = TyString)) as [E|E].
  - apply typeof_string, E.
  - rewrite (validate_non_string type value E) in H. discriminate H.
Qed.

(** ** The classifiers called with arbitrary values *)

Lemma callClassifier_typed (pattern : RegExp) (data : Data) :
  callClassifier pattern (valueOfData data) =
  Return (RegExpTest pattern (toString data)).
Proof. destruct data; reflexivity. Qed.

(** C4 (amended). Each classifier returns a boolean, without throwing, for
    every string and every Buffer; on [null] and [undefined], which the
    declared parameter type excludes, the call throws a [TypeError]. *)
Theorem C4_classifiers_total_on_typed_input (data : Data) :
  callClassifier bcryptHashPattern (valueOfData data) = Return (isBcrypt data) /\
  callClassifier argon2HashPattern (valueOfData data) = Return (isArgon2 data) /\
  callClassifier md5HashPattern (valueOfData data) = Return (isMD5 data) /\
  callClassifier sha1HashPattern (valueOfData data) = Return (isSHA1 data) /\
  callClassifier sha256HashPattern (valueOfData data) = Return (isSHA256 data) /\
  (forall pattern,
     callClassifier pattern JNull = Throw TypeError /\
     callClassifier pattern JUndefined = Throw TypeError).
Proof.
  repeat split; try apply callClassifier_typed.
Qed.

(** Every value other than [null] and [undefined] is classified. *)
Lemma callClassifier_returns (pattern : RegExp) (value : JsValue) :
  value <> JNull -> value <> JUndefined ->
  exists b, callClassifier pattern value = Return b.
Proof.
  intros H1 H2. unfold callClassifier.
  destruct value; try contradiction; simpl; eauto.
Qed.

(** ** The strategy holder *)

Lemma getInstance_returns (this : HashBin) :
  getInstance this = Return (strategyInstance this).
Proof. reflexivity. Qed.

Lemma setInstance_instance (ref : loc) (h : Heap) (this : HashBin) :
  setInstance (JObject ref) h this =
  Return (h, {| strategyInstance := JObject ref |}).
Proof. reflexivity. Qed.

Lemma setInstance_constructor (C : Class) (h : Heap) (this : HashBin) :
  setInstance (JFunction C) h this =
  Return (h ++ [ {| classOf := C |} ],
          {| strategyInstance := JObject (length h) |}).
Proof. reflexivity. Qed.

Lemma construct_fresh (C : Class) (h : Heap) :
  h !! length h = None /\
  (h ++ [ {| classOf := C |} ]) !! length h = Some {| classOf := C |} /\
  (forall l o, h !! l = Some o -> (h ++ [ {| classOf := C |} ]) !! l = Some o).
Proof.
  split; [apply lookup_ge_None_2; lia|]. split.
  - rewrite lookup_app_r by lia. rewrite Nat.sub_diag. reflexivity.
  - intros l o Hl. apply lookup_app_l_Some. exact Hl.
Qed.

(** C2 (amended). [getInstance()] on a holder on which [setInstance] was
    never called returns [undefined] and raises no error.  After
    [setInstance(X)] with an instance [X], [getInstance()] returns the
    reference [X] itself and the heap is unchanged; after [setInstance(C)]
    with a constructor [C], it returns a reference that was not allocated
    before and that holds a new object of class [C]. *)
Theorem C2_holder_get_after_set (h : Heap) (this : HashBin) :
  getInstance newHashBin = Return JUndefined /\
  (forall X,
     exists this',
       setInstance (JObject X) h this = Return (h, this') /\
       getInstance this' = Return (JObject X)) /\
  (forall C,
     exists h' this' l,
       setInstance (JFunction C) h this = Return (h', this') /\
       getInstance this' = Return (JObject l) /\
       h !! l = None /\
       h' !! l = Some {| classOf := C |} /\
       (forall l' o, h !! l' = Some o -> h' !! l' = Some o)).
Proof.
  split; [reflexivity|]. split.
  - intros X. eexists. split; reflexivity.
  - intros C. destruct (construct_fresh C h) as (H1 & H2 & H3).
    eexists _, _, _. rewrite setInstance_constructor.
    split; [reflexivity|]. split; [reflexivity|]. auto.
Qed.

(** The last call of [setInstance] wins. *)
Lemma setInstance_overwrites (X Y : loc) (h : Heap) (this : HashBin) :
  (let* st := setInstance (JObject X) h this in
   let* st' := setInstance (JObject Y) (fst st) (snd st) in
   getInstance (snd st')) = Return (JObject Y).
Proof. reflexivity. Qed.

(** ** BcryptService *)

Lemma BcryptService_getSalt_given (s : str) (r : option Z) :
  s <> [] ->
  BcryptService_getSalt
    (Some {| BcryptOptions.salt := Some s; BcryptOptions.rounds := r |}) =
  retM s.
Proof. intros Hs. destruct s; [contradiction|]. reflexivity. Qed.

Lemma BcryptService_getSalt_generated (salt : option str) (r : option Z) :
  truthyString salt = false ->
  BcryptService_getSalt
    (Some {| BcryptOptions.salt := salt; BcryptOptions.rounds := r |}) =
  bcrypt_genSaltSync (if truthyNumber r then r else None).
Proof.
  intros Hs. unfold BcryptService_getSalt. cbn [mbind option_bind].
  simpl. rewrite Hs. simpl. destruct (truthyNumber r); reflexivity.
Qed.

(** C10. With a non-empty salt in the per-call options, [rounds] is
    ignored: the result is [bcrypt.hash(data, salt)] whatever [rounds] is,
    and no random salt is drawn.  Without a salt, [rounds] (when non-zero)
    is the argument of the salt generation. *)
Theorem C10_bcrypt_salt_overrides_rounds
    (data : Data) (s : str) (r r' : option Z) (e : Entropy) :
  s <> [] ->
  BcryptService_hash data
    (Some {| BcryptOptions.salt := Some s; BcryptOptions.rounds := r |}) e =
  BcryptService_hash data
    (Some {| BcryptOptions.salt := Some s; BcryptOptions.rounds := r' |}) e /\
  BcryptService_hash data
    (Some {| BcryptOptions.salt := Some s; BcryptOptions.rounds := r |}) e =
  (bcrypt_hash data s, e) /\
  BcryptService_getSalt
    (Some {| BcryptOptions.salt := None; BcryptOptions.rounds := r |}) =
  bcrypt_genSaltSync (if truthyNumber r then r else None).
Proof.
  intros Hs. unfold BcryptService_hash.
  rewrite !BcryptService_getSalt_given by exact Hs.
  split; [reflexivity|]. split.
  - unfold bindM, retM, liftM. destruct (bcrypt_hash data s); reflexivity.
  - apply BcryptService_getSalt_generated. reflexivity.
Qed.

(** ** Argon2Service *)

Lemma Argon2Service_hash_with_options (this : Argon2Service.t) (data : Data)
    (o : Argon2Options.t) :
  Argon2Service_hash this data (ArgValue o) = argon2_hash data (Some o).
Proof. reflexivity. Qed.

Lemma Argon2Service_hash_null (o : Argon2Options.t) (data : Data) :
  Argon2Service_hash {| Argon2Service.options := Some o |} data ArgNull =
  argon2_hash data (Some o).
Proof. reflexivity. Qed.

(** C5. A hash call of [Argon2Service] without per-call options: the
    default value of the parameter is the empty object, which is not
    [null], so the primitive receives the empty object and the options
    given to the constructor are not applied. *)
Theorem C5_argon2_hash_drops_constructor_options
    (this : Argon2Service.t) (data : Data) :
  Argon2Service_hash this data ArgUndefined =
  argon2_hash data (Some Argon2Options.empty).
Proof. reflexivity. Qed.

(** ** Pbkdf2Strategy *)

Lemma nullish_idem {A} (a b : option A) :
  nullish (nullish a b) b = nullish a b.
Proof. destruct a, b; reflexivity. Qed.

Lemma Pbkdf2Strategy_getFinalOptions_idem (this : Pbkdf2Strategy.t)
    (o : Pbkdf2Options.t) :
  Pbkdf2Strategy_getFinalOptions this (Pbkdf2Strategy_getFinalOptions this o) =
  Pbkdf2Strategy_getFinalOptions this o.
Proof.
  unfold Pbkdf2Strategy_getFinalOptions.
  cbn [Pbkdf2Options.salt Pbkdf2Options.iterations Pbkdf2Options.keylen
       Pbkdf2Options.digest].
  rewrite !nullish_idem. reflexivity.
Qed.

(** A field of the per-call options wins over the field of the options of
    the constructor. *)
Lemma Pbkdf2Strategy_getFinalOptions_precedence (this : Pbkdf2Strategy.t)
    (o : Pbkdf2Options.t) :
  let final := Pbkdf2Strategy_getFinalOptions this o in
  let dflt := Pbkdf2Strategy.options this in
  Pbkdf2Options.salt final =
    nullish (Pbkdf2Options.salt o) (dflt ≫= Pbkdf2Options.salt) /\
  Pbkdf2Options.iterations final =
    nullish (Pbkdf2Options.iterations o) (dflt ≫= Pbkdf2Options.iterations) /\
  Pbkdf2Options.keylen final =
    nullish (Pbkdf2Options.keylen o) (dflt ≫= Pbkdf2Options.keylen) /\
  Pbkdf2Options.digest final =
    nullish (Pbkdf2Options.digest o) (dflt ≫= Pbkdf2Options.digest).
Proof. repeat split. Qed.

(** A strategy constructed without options gets the defaults of the
    library. *)
Lemma Pbkdf2Strategy_new_defaults (e : Entropy) :
  let this := fst (Pbkdf2Strategy_new None e) in
  exists o,
    Pbkdf2Strategy.options this = Some o /\
    Pbkdf2Options.salt o = Some (DBuffer (fst (crypto_randomBytes 16 e))) /\
    Pbkdf2Options.iterations o = Some 1000%Z /\
    Pbkdf2Options.keylen o = Some 64%Z /\
    Pbkdf2Options.digest o = Some (lit "sha256").
Proof.
  unfold Pbkdf2Strategy_new. destruct (crypto_randomBytes 16 e) as [bytes e'].
  eexists. repeat split.
Qed.

(** A field that neither the call nor the constructor supplies stays
    [undefined]: the defaults above are installed only when the constructor
    gets no options at all. *)
Lemma Pbkdf2Strategy_getFinalOptions_missing_field (salt : Data) :
  Pbkdf2Options.iterations
    (Pbkdf2Strategy_getFinalOptions
       {| Pbkdf2Strategy.options := Some (withSalt salt Pbkdf2Options.empty) |}
       Pbkdf2Options.empty) = None.
Proof. reflexivity. Qed.

(** Without per-call options the options of the constructor are applied. *)
Lemma Pbkdf2Strategy_hash_without_options (o : Pbkdf2Options.t) (data : Data) :
  Pbkdf2Strategy_hash {| Pbkdf2Strategy.options := Some o |} data None =
  let* hashedData :=
    crypto_pbkdf2 data (Pbkdf2Options.salt o) (Pbkdf2Options.iterations o)
      (Pbkdf2Options.keylen o) (Pbkdf2Options.digest o) in
  Return (bufferToBase64 hashedData).
Proof. reflexivity. Qed.

Lemma Pbkdf2Strategy_compare_hash (this : Pbkdf2Strategy.t) (data : Data)
    (opts : Pbkdf2Options.t) (h : str) :
  Pbkdf2Strategy_hash this data (Some opts) = Return h ->
  Pbkdf2Strategy_compare this data (DString h) (Some opts) = Return true.
Proof.
  intros Hh. unfold Pbkdf2Strategy_compare.
  assert (E : Pbkdf2Strategy_hash this data
                (Some (Pbkdf2Strategy_getFinalOptions this opts)) = Return h).
  { unfold Pbkdf2Strategy_hash in *. cbn [default from_option id] in *.
    rewrite Pbkdf2Strategy_getFinalOptions_idem. exact Hh. }
  rewrite E. cbn [bindC toStringBase64].
  rewrite bool_decide_true by reflexivity. reflexivity.
Qed.

Lemma Pbkdf2Strategy_hash_salts (this : Pbkdf2Strategy.t) (data : Data)
    (opts : Pbkdf2Options.t) (s1 s2 : Data) :
  (forall a b, bufferToBase64 a = bufferToBase64 b -> a = b) ->
  let final := Pbkdf2Strategy_getFinalOptions this opts in
  crypto_pbkdf2 data (Some s1) (Pbkdf2Options.iterations final)
      (Pbkdf2Options.keylen final) (Pbkdf2Options.digest final) <>
  crypto_pbkdf2 data (Some s2) (Pbkdf2Options.iterations final)
      (Pbkdf2Options.keylen final) (Pbkdf2Options.digest final) ->
  Pbkdf2Strategy_hash this data (Some (withSalt s1 opts)) <>
  Pbkdf2Strategy_hash this data (Some (withSalt s2 opts)).
Proof.
  intros Hinj final Hne. unfold Pbkdf2Strategy_hash.
  cbn [default from_option id Pbkdf2Strategy_getFinalOptions withSalt nullish
       Pbkdf2Options.salt Pbkdf2Options.iterations Pbkdf2Options.keylen
       Pbkdf2Options.digest].
  subst final. unfold Pbkdf2Strategy_getFinalOptions in Hne.
  cbn [Pbkdf2Options.iterations Pbkdf2Options.keylen Pbkdf2Options.digest]
    in Hne.
  destruct (crypto_pbkdf2 data (Some s1) _ _ _) as [k1|e1];
    destruct (crypto_pbkdf2 data (Some s2) _ _ _) as [k2|e2];
    cbn [bindC]; intros E; apply Hne.
  - injection E as E. apply Hinj in E. congruence.
  - discriminate E.
  - discriminate E.
  - exact E.
Qed.

(** C7. PBKDF2: comparing [data] with [hash(data, opts)] under the same
    [opts] yields true; and the hashes of the same data under two salts
    differ whenever the primitive derives different keys for the two salts,
    the output being the base64 text of the derived key and nothing else. *)
Theorem C7_pbkdf2_compare_with_same_options
    (this : Pbkdf2Strategy.t) (data : Data) (opts : Pbkdf2Options.t)
    (h : str) (s1 s2 : Data) :
  Pbkdf2Strategy_hash this data (Some opts) = Return h ->
  Pbkdf2Strategy_compare this data (DString h) (Some opts) = Return true /\
  ((forall a b, bufferToBase64 a = bufferToBase64 b -> a = b) ->
   let final := Pbkdf2Strategy_getFinalOptions this opts in
   crypto_pbkdf2 data (Some s1) (Pbkdf2Options.iterations final)
       (Pbkdf2Options.keylen final) (Pbkdf2Options.digest final) <>
   crypto_pbkdf2 data (Some s2) (Pbkdf2Options.iterations final)
       (Pbkdf2Options.keylen final) (Pbkdf2Options.digest final) ->
   Pbkdf2Strategy_hash this data (Some (withSalt s1 opts)) <>
   Pbkdf2Strategy_hash this data (Some (withSalt s2 opts))).
Proof.
  intros Hh. split.
  - apply Pbkdf2Strategy_compare_hash. exact Hh.
  - intros Hinj. apply Pbkdf2Strategy_hash_salts. exact Hinj.
Qed.

(** ** RsaService *)

Lemma RsaService_getFinalOptions_encodings (this : RsaService.t)
    (o : RsaPemOptions.t) :
  exists final,
    RsaService_getFinalOptions this (Some o) = Return final /\
    RsaPemOptions.publicKeyEncoding final =
      nullish (RsaPemOptions.publicKeyEncoding o)
        (nullish (RsaService.options this ≫= RsaPemOptions.publicKeyEncoding)
                 (Some spkiPem)) /\
    RsaPemOptions.privateKeyEncoding final =
      nullish (RsaPemOptions.privateKeyEncoding o)
        (nullish (RsaService.options this ≫= RsaPemOptions.privateKeyEncoding)
                 (Some pkcs8Pem)).
Proof. eexists. repeat split. Qed.

(** C6. [generateKeyPair()] without options throws a [TypeError] before
    the primitive is called, because the options object is dereferenced;
    and with options the modulus length passed to the primitive is 2048
    whatever [modulusLength] they carry. *)
Theorem C6_generateKeyPair_without_options (this : RsaService.t) (e : Entropy) :
  RsaService_generateKeyPair this None e = (Throw TypeError, e) /\
  (forall o,
     RsaService_generateKeyPair this (Some o) e =
     crypto_generateKeyPairSync (Some 2048%Z)
       (nullish (RsaPemOptions.publicKeyEncoding o)
          (nullish (RsaService.options this ≫= RsaPemOptions.publicKeyEncoding)
                   (Some spkiPem)))
       (nullish (RsaPemOptions.privateKeyEncoding o)
          (nullish (RsaService.options this ≫= RsaPemOptions.privateKeyEncoding)
                   (Some pkcs8Pem))) e).
Proof. split; [reflexivity|]. intros o. reflexivity. Qed.

(** * Further properties of the classifiers *)

(** ** What a match consumes *)

Lemma charSetMem_ascii ic (A : list char) (ch : char) :
  asciiChars A = true -> charSetMem ic A ch = true -> ch < 128.
Proof.
  unfold asciiChars, charSetMem. rewrite forallb_forall, existsb_exists.
  intros HA (a & Ha & E). apply HA in Ha. apply N.ltb_lt in Ha.
  apply N.eqb_eq in E. destruct ic.
  - rewrite (Canonicalize_ascii a Ha) in E.
    destruct (N.lt_ge_cases ch 128) as [Hlt | Hge]; [exact Hlt|].
    apply Canonicalize_non_ascii in Hge. pose proof (asciiUpper_lt a Ha). lia.
  - unfold Canonicalize in E. simpl in E. subst. exact Ha.
Qed.

Lemma consumed_one ic (A : list char) x (ch : char) (s : str) :
  asciiChars A = true -> rest x = ch :: s -> charSetMem ic A ch = true ->
  exists w, consumed x (advance x s) w /\
            (1 <= length w <= 1)%nat /\ Forall (fun c => c < 128) w.
Proof.
  intros HA Hr Hm. exists [ch]. repeat split; simpl; auto; try lia.
  constructor; [|constructor]. eapply charSetMem_ascii; eauto.
Qed.

Lemma consumed_app x y z (w1 w2 : str) :
  consumed x y w1 -> consumed y z w2 -> consumed x z (w1 ++ w2).
Proof.
  intros [Hr1 He1] [Hr2 He2]. split.
  - rewrite Hr1, Hr2, app_assoc. reflexivity.
  - rewrite He2, He1, length_app. lia.
Qed.

Lemma Matches_Quant_consumed ic r :
  (forall x y, Matches ic r x y ->
     exists w, consumed x y w /\
       (minLen r <= length w <= maxLen r)%nat /\ Forall (fun c => c < 128) w) ->
  forall max min x z, Matches ic (Quant r min max) x z ->
    exists w, consumed x z w /\
      (Nat.min min max * minLen r <= length w <= max * maxLen r)%nat /\
      Forall (fun c => c < 128) w.
Proof.
  intros Hr max. induction max as [|max IH]; intros min x z HM.
  - exists []. inversion HM; subst; (split; [split; simpl; auto|]);
      rewrite ?Nat.min_0_r; simpl; auto.
  - inversion HM as [ | | | | | | | | | | | r0 mx x0
                     | r0 mn mx x0 y0 z0 H1 Hne H2 ]; subst.
    + exists []. split; [split; simpl; auto|]. simpl. split; [lia|constructor].
    + apply Hr in H1 as (w1 & Hc1 & Hl1 & Ha1).
      apply IH in H2 as (w2 & Hc2 & Hl2 & Ha2).
      exists (w1 ++ w2). split; [eapply consumed_app; eauto|].
      split; [|apply Forall_app; auto].
      rewrite length_app. destruct min as [|k]; simpl in *.
      * set (p := (max * maxLen r)%nat) in *. lia.
      * set (p := (max * maxLen r)%nat) in *.
        set (q := (Nat.min k max * minLen r)%nat) in *. lia.
Qed.

Lemma Matches_consumed ic r :
  asciiRegex r = true ->
  forall x y, Matches ic r x y ->
    exists w, consumed x y w /\
      (minLen r <= length w <= maxLen r)%nat /\ Forall (fun c => c < 128) w.
Proof.
  induction r as [ | | | a | atoms | | r1 IH1 r2 IH2 | r1 IH1 r2 IH2
                 | cap r IH | r IH min max ];
    cbn [asciiRegex minLen maxLen]; intros Hascii x y HM.
  - inversion HM; subst. exists []. repeat split; simpl; auto.
  - inversion HM; subst. exists []. repeat split; simpl; auto.
  - inversion HM; subst. exists []. repeat split; simpl; auto.
  - inversion HM; subst. eapply consumed_one; eauto.
  - inversion HM; subst. eapply consumed_one; eauto.
  - inversion HM; subst. eapply consumed_one; eauto.
  - apply andb_true_iff in Hascii as [Ha1 Ha2]. inversion HM; subst.
    match goal with H : Matches _ r1 _ _ |- _ =>
      apply (IH1 Ha1) in H as (w1 & Hc1 & Hl1 & Hf1) end.
    match goal with H : Matches _ r2 _ _ |- _ =>
      apply (IH2 Ha2) in H as (w2 & Hc2 & Hl2 & Hf2) end.
    exists (w1 ++ w2). split; [eapply consumed_app; eauto|].
    split; [rewrite length_app; lia | apply Forall_app; auto].
  - apply andb_true_iff in Hascii as [Ha1 Ha2]. inversion HM; subst.
    + match goal with H : Matches _ r1 _ _ |- _ =>
        apply (IH1 Ha1) in H as (w & Hc & Hl & Hf) end.
      exists w. split; [exact Hc|]. split; [lia | exact Hf].
    + match goal with H : Matches _ r2 _ _ |- _ =>
        apply (IH2 Ha2) in H as (w & Hc & Hl & Hf) end.
      exists w. split; [exact Hc|]. split; [lia | exact Hf].
  - inversion HM; subst. auto.
  - eapply Matches_Quant_consumed; eauto.
Qed.

Lemma startsWithBegin_index ic r x y :
  startsWithBegin r = true -> Matches ic r x y -> endIndex x = 0%nat.
Proof.
  revert x y. induction r; simpl; intros x y Hs HM; try discriminate.
  - inversion HM; subst. assumption.
  - inversion HM; subst. eauto.
Qed.

Lemma endsWithEnd_rest ic r :
  forall x y, endsWithEnd r = true -> Matches ic r x y -> rest y = [].
Proof.
  induction r as [ | | | a | atoms | | r1 IH1 r2 IH2 | r1 IH1 r2 IH2
                 | cap r IH | r IH min max ]; simpl; intros x y He HM;
    try discriminate.
  - inversion HM; subst. assumption.
  - inversion HM as [ | | | | | | ra rb x0 y0 z0 H1 H2 | | | | | | ]; subst.
    destruct r2; try (eapply IH2; eauto; fail).
    inversion H2; subst. eapply IH1; eauto.
Qed.

Lemma RegExpTest_anchored (R : RegExp) (s : str) :
  startsWithBegin (source R) = true ->
  endsWithEnd (source R) = true ->
  asciiRegex (source R) = true ->
  RegExpTest R s = true ->
  (minLen (source R) <= length s <= maxLen (source R))%nat /\
  Forall (fun c => c < 128) s.
Proof.
  intros Hb He Ha Ht. apply RegExpTest_MatchesPattern in Ht as (i & y & Hi & HM).
  pose proof (startsWithBegin_index _ _ _ _ Hb HM) as H0.
  pose proof (endsWithEnd_rest _ _ _ _ He HM) as Hnil.
  apply (Matches_consumed _ _ Ha) in HM as (w & [Hr _] & Hl & Hf).
  cbn [endIndex rest] in *. subst i. rewrite drop_0, Hnil, app_nil_r in Hr.
  subst w. auto.
Qed.

(** X1. [isBcrypt] accepts exactly the strings made of [$2], an optional
    version letter among a, b, x, y, [$], a two-digit cost between 04 and
    31, [$] and 53 characters of the alphabet [./0-9A-Za-z]. *)
Theorem X1_isBcrypt_accepts_the_bcrypt_shape (data : Data) :
  isBcrypt data = true <-> bcryptShape (toString data).
Proof.
  unfold isBcrypt. rewrite RegExpTest_MatchesPattern, bcrypt_code_spec.
  apply bcryptPattern_spec_shape.
Qed.

Lemma pattern_measures :
  (minLen (source bcryptHashPattern) = 59 /\
   maxLen (source bcryptHashPattern) = 60)%nat /\
  (minLen (source argon2HashPattern) = 55 /\
   maxLen (source argon2HashPattern) = 265)%nat /\
  (minLen (source md5HashPattern) = 32 /\
   maxLen (source md5HashPattern) = 32)%nat /\
  (minLen (source sha1HashPattern) = 40 /\
   maxLen (source sha1HashPattern) = 40)%nat /\
  (minLen (source sha256HashPattern) = 64 /\
   maxLen (source sha256HashPattern) = 64)%nat.
Proof. vm_compute. repeat split. Qed.

(** X2. The length of every accepted text is bounded by its pattern: 59 or
    60 code units for bcrypt, between 55 and 265 for Argon2, and 32, 40 and
    64 for MD5, SHA-1 and SHA-256. *)
Theorem X2_accepted_lengths (data : Data) :
  (isBcrypt data = true -> (59 <= length (toString data) <= 60)%nat) /\
  (isArgon2 data = true -> (55 <= length (toString data) <= 265)%nat) /\
  (isMD5 data = true -> length (toString data) = 32%nat) /\
  (isSHA1 data = true -> length (toString data) = 40%nat) /\
  (isSHA256 data = true -> length (toString data) = 64%nat).
Proof.
  destruct pattern_measures
    as ([B1 B2] & [A1 A2] & [M1 M2] & [S1 S2] & [T1 T2]).
  unfold isBcrypt, isArgon2, isMD5, isSHA1, isSHA256.
  split; [|split; [|split; [|split]]]; intros Ht;
    apply RegExpTest_anchored in Ht as [Hl _]; try (vm_compute; reflexivity).
  - rewrite B1, B2 in Hl. exact Hl.
  - rewrite A1, A2 in Hl. exact Hl.
  - rewrite M1, M2 in Hl. lia.
  - rewrite S1, S2 in Hl. lia.
  - rewrite T1, T2 in Hl. lia.
Qed.

(** X3. A text accepted by any of the five classifiers consists of ASCII
    code units only; in particular the case-insensitive Argon2 pattern
    accepts no non-ASCII letter in place of an ASCII one. *)
Theorem X3_accepted_texts_are_ascii (data : Data) :
  isBcrypt data || isArgon2 data || isMD5 data || isSHA1 data
    || isSHA256 data = true ->
  Forall (fun c => c < 128) (toString data).
Proof.
  unfold isBcrypt, isArgon2, isMD5, isSHA1, isSHA256.
  rewrite !orb_true_iff. intros [[[[H | H] | H] | H] | H];
    apply RegExpTest_anchored in H as [_ Hf];
    try (vm_compute; reflexivity); exact Hf.
Qed.

(** ** The hexadecimal classifiers *)

Lemma hexChars_spec (atoms : list ClassAtom) (ch : char) :
  atoms = [ClassRange (cu "a") (cu "f"); ClassRange (cu "A") (cu "F");
           ClassRange (cu "0") (cu "9")] \/
  atoms = [ClassRange (cu "A") (cu "F"); ClassRange (cu "a") (cu "f");
           ClassRange (cu "0") (cu "9")] ->
  In ch (classChars atoms) <-> isHexChar ch.
Proof using Type.
  intros [-> | ->]; unfold classChars; cbn [map concat atomChars];
    rewrite !in_app_iff, !In_rangeChars; cbn [In];
    change (cu "a") with 97; change (cu "f") with 102;
    change (cu "A") with 65; change (cu "F") with 70;
    change (cu "0") with 48; change (cu "9") with 57;
    unfold isHexChar; split.
  - intros [H | [H | [H | []]]]; auto.
  - intros [H | [H | H]]; auto.
  - intros [H | [H | [H | []]]]; auto.
  - intros [H | [H | H]]; auto.
Qed.

Lemma hex_classifier_spec (atoms : list ClassAtom) (n : nat) (s : str) :
  atoms = [ClassRange (cu "a") (cu "f"); ClassRange (cu "A") (cu "F");
           ClassRange (cu "0") (cu "9")] \/
  atoms = [ClassRange (cu "A") (cu "F"); ClassRange (cu "a") (cu "f");
           ClassRange (cu "0") (cu "9")] ->
  RegExpTest
    {| source := SeqOf [AssertBegin; Exactly n (CharClass atoms); AssertEnd];
       ignoreCase := false |} s = true <->
  hexString n s.
Proof using Type.
  intros Hatoms. unfold hexString.
  rewrite RegExpTest_MatchesPattern, anchored_class_pattern.
  split; intros [Hl Hall]; (split; [exact Hl|]);
    (eapply Forall_impl; [exact Hall|]); intros ch;
    apply (hexChars_spec atoms ch Hatoms).
Qed.

Lemma hex_classifiers (data : Data) :
  (isMD5 data = true <-> hexString 32 (toString data)) /\
  (isSHA1 data = true <-> hexString 40 (toString data)) /\
  (isSHA256 data = true <-> hexString 64 (toString data)).
Proof using Type.
  unfold isMD5, isSHA1, isSHA256, md5HashPattern, sha1HashPattern,
    sha256HashPattern, hexClass.
  split; [|split]; apply hex_classifier_spec; auto.
Qed.

(** ** Letter case *)

Lemma asciiUpper_idem (c : char) : asciiUpper (asciiUpper c) = asciiUpper c.
Proof.
  unfold asciiUpper.
  destruct ((97 <=? c) && (c <=? 122)) eqn:E.
  - apply andb_true_iff in E as [E1 E2].
    apply N.leb_le in E1. apply N.leb_le in E2.
    destruct ((97 <=? c - 32) && (c - 32 <=? 122)) eqn:E'; [|reflexivity].
    apply andb_true_iff in E' as [E3 E4]. apply N.leb_le in E3. lia.
  - rewrite E. reflexivity.
Qed.

Lemma asciiUpper_non_ascii (c : char) : 128 <= c -> asciiUpper c = c.
Proof.
  intros Hc. unfold asciiUpper.
  destruct ((97 <=? c) && (c <=? 122)) eqn:E; [|reflexivity].
  apply andb_true_iff in E as [_ E2]. apply N.leb_le in E2. lia.
Qed.

Lemma Canonicalize_asciiUpper (ch : char) :
  Canonicalize true (asciiUpper ch) = Canonicalize true ch.
Proof.
  destruct (N.lt_ge_cases ch 128) as [Hlt | Hge].
  - rewrite (Canonicalize_ascii _ (asciiUpper_lt _ Hlt)).
    rewrite (Canonicalize_ascii _ Hlt). apply asciiUpper_idem.
  - rewrite (asciiUpper_non_ascii _ Hge). reflexivity.
Qed.

Lemma charSetMem_asciiUpper (A : list char) (ch : char) :
  charSetMem true A (asciiUpper ch) = charSetMem true A ch.
Proof. unfold charSetMem. rewrite Canonicalize_asciiUpper. reflexivity. Qed.

Lemma CharacterSetMatcher_upState (A : list char) x (c c' : Continuation) :
  (forall y, c' (upState y) = c y) ->
  CharacterSetMatcher true A (upState x) c' = CharacterSetMatcher true A x c.
Proof.
  intros Hc. unfold CharacterSetMatcher. cbn [upState rest endIndex].
  destruct (rest x) as [|ch s]; [reflexivity|]. cbn [map].
  rewrite charSetMem_asciiUpper.
  destruct (charSetMem true A ch); [|reflexivity].
  rewrite <- Hc. reflexivity.
Qed.

Lemma RepeatMatcher_upState (m : MatchState -> Continuation -> bool) :
  (forall x c c', (forall y, c' (upState y) = c y) ->
                  m (upState x) c' = m x c) ->
  forall max min x c c',
    (forall y, c' (upState y) = c y) ->
    RepeatMatcher m min max (upState x) c' = RepeatMatcher m min max x c.
Proof.
  intros Hm max. induction max as [|max IH]; intros min x c c' Hc;
    cbn [RepeatMatcher]; [apply Hc|].
  assert (Hd : forall y,
    (if Nat.eqb min 0 && Nat.eqb (endIndex (upState y)) (endIndex (upState x))
     then false else RepeatMatcher m (Nat.pred min) max (upState y) c') =
    (if Nat.eqb min 0 && Nat.eqb (endIndex y) (endIndex x)
     then false else RepeatMatcher m (Nat.pred min) max y c)).
  { intros y. cbn [upState endIndex].
    destruct (Nat.eqb min 0 && Nat.eqb (endIndex y) (endIndex x));
      [reflexivity | apply IH, Hc]. }
  rewrite (Hm x _ _ Hd), (Hc x). reflexivity.
Qed.

Lemma CompileSubpattern_upState (r : Regex) :
  forall x c c', (forall y, c' (upState y) = c y) ->
    CompileSubpattern true r (upState x) c' = CompileSubpattern true r x c.
Proof.
  induction r as [ | | | a | atoms | | r1 IH1 r2 IH2 | r1 IH1 r2 IH2
                 | cap r IH | r IH min max ];
    intros x c c' Hc; cbn [CompileSubpattern].
  - apply Hc.
  - cbn [upState endIndex]. rewrite Hc. reflexivity.
  - cbn [upState rest]. destruct (rest x); [apply Hc | reflexivity].
  - apply CharacterSetMatcher_upState, Hc.
  - apply CharacterSetMatcher_upState, Hc.
  - apply CharacterSetMatcher_upState, Hc.
  - apply IH1. intros y. apply IH2, Hc.
  - rewrite (IH1 x c c' Hc), (IH2 x c c' Hc). reflexivity.
  - apply IH, Hc.
  - apply RepeatMatcher_upState; [exact IH | exact Hc].
Qed.

Lemma existsb_pointwise {A} (f g : A -> bool) (l : list A) :
  (forall a, f a = g a) -> existsb f l = existsb g l.
Proof.
  intros H. induction l as [|a l IH]; simpl; [reflexivity|].
  rewrite H, IH. reflexivity.
Qed.

Lemma RegExpTest_asciiUpper (R : RegExp) (s : str) :
  ignoreCase R = true ->
  RegExpTest R (map asciiUpper s) = RegExpTest R s.
Proof.
  intros Hic. unfold RegExpTest. rewrite length_map.
  apply existsb_pointwise. intros i. unfold matchAt. rewrite Hic.
  change {| endIndex := i; rest := drop i (map asciiUpper s) |}
    with {| endIndex := i; rest := skipn i (map asciiUpper s) |}.
  rewrite skipn_map.
  apply (CompileSubpattern_upState (source R)
           {| endIndex := i; rest := drop i s |}).
  reflexivity.
Qed.

Lemma isHexChar_asciiUpper (c : char) : isHexChar (asciiUpper c) <-> isHexChar c.
Proof using Type.
  unfold isHexChar, asciiUpper.
  destruct ((97 <=? c) && (c <=? 122)) eqn:E; [|reflexivity].
  apply andb_true_iff in E as [E1 E2].
  apply N.leb_le in E1. apply N.leb_le in E2. lia.
Qed.

Lemma hexString_asciiUpper (n : nat) (s : str) :
  hexString n (map asciiUpper s) <-> hexString n s.
Proof.
  unfold hexString. rewrite length_map, Forall_map.
  split; intros [Hl Hf]; (split; [exact Hl|]);
    (eapply Forall_impl; [exact Hf|]); intros c; apply isHexChar_asciiUpper.
Qed.

(** X4. The Argon2 and the three hexadecimal classifiers do not see the
    case of ASCII letters: a text and its upper-cased copy are classified
    alike. *)
Theorem X4_case_of_letters_is_ignored (s : str) :
  isArgon2 (DString (map asciiUpper s)) = isArgon2 (DString s) /\
  isMD5 (DString (map asciiUpper s)) = isMD5 (DString s) /\
  isSHA1 (DString (map asciiUpper s)) = isSHA1 (DString s) /\
  isSHA256 (DString (map asciiUpper s)) = isSHA256 (DString s).
Proof.
  split; [apply RegExpTest_asciiUpper; reflexivity|].
  destruct (hex_classifiers (DString (map asciiUpper s))) as (M1 & S1 & T1).
  destruct (hex_classifiers (DString s)) as (M2 & S2 & T2).
  cbn [toString] in *.
  repeat split; apply eq_true_iff_eq.
  - rewrite M1, M2. apply hexString_asciiUpper.
  - rewrite S1, S2. apply hexString_asciiUpper.
  - rewrite T1, T2. apply hexString_asciiUpper.
Qed.

(** * Further properties of the validator *)

Lemma validate_typed (type value : str) :
  type <> [] ->
  validate (Some type) (JString value) = mapValidationByHashType type value.
Proof. intros H. destruct type; [contradiction | reflexivity]. Qed.

Lemma validate_with_classifier (type : str) (f : Data -> bool) (value : JsValue) :
  type <> [] ->
  (forall s, mapValidationByHashType type s = JBool (f (DString s))) ->
  validate (Some type) value = JBool true <->
  exists s, value = JString s /\ f (DString s) = true.
Proof.
  intros Hne Hmap. split.
  - intros H. destruct (validate_true_is_string _ _ H) as (s & ->).
    rewrite (validate_typed _ _ Hne), Hmap in H. injection H as H. eauto.
  - intros (s & -> & Hf).
    rewrite (validate_typed _ _ Hne), Hmap, Hf. reflexivity.
Qed.

(** X5. With a recognized type the validator accepts exactly the strings
    that the classifier of that type accepts; without a type it accepts
    exactly the strings that [isBcrypt] or [isArgon2] accepts. *)
Theorem X5_validate_accepts_what_the_classifier_accepts (value : JsValue) :
  (validate (Some (lit "bcrypt")) value = JBool true <->
     exists s, value = JString s /\ isBcrypt (DString s) = true) /\
  (validate (Some (lit "argon2")) value = JBool true <->
     exists s, value = JString s /\ isArgon2 (DString s) = true) /\
  (validate (Some (lit "md5")) value = JBool true <->
     exists s, value = JString s /\ isMD5 (DString s) = true) /\
  (validate (Some (lit "sha1")) value = JBool true <->
     exists s, value = JString s /\ isSHA1 (DString s) = true) /\
  (validate (Some (lit "sha256")) value = JBool true <->
     exists s, value = JString s /\ isSHA256 (DString s) = true) /\
  (validate None value = JBool true <->
     exists s, value = JString s /\
       (isBcrypt (DString s) = true \/ isArgon2 (DString s) = true)).
Proof.
  split; [|split; [|split; [|split; [|split]]]].
  - apply (validate_with_classifier (lit "bcrypt") isBcrypt); [discriminate|].
    intros s. exact (proj1 (mapValidationByHashType_recognized s)).
  - apply (validate_with_classifier (lit "argon2") isArgon2); [discriminate|].
    intros s. exact (proj1 (proj2 (mapValidationByHashType_recognized s))).
  - apply (validate_with_classifier (lit "md5") isMD5); [discriminate|].
    intros s.
    exact (proj1 (proj2 (proj2 (mapValidationByHashType_recognized s)))).
  - apply (validate_with_classifier (lit "sha1") isSHA1); [discriminate|].
    intros s.
    exact (proj1 (proj2 (proj2 (proj2
             (mapValidationByHashType_recognized s))))).
  - apply (validate_with_classifier (lit "sha256") isSHA256); [discriminate|].
    intros s.
    exact (proj2 (proj2 (proj2 (proj2
             (mapValidationByHashType_recognized s))))).
  - split.
    + intros H. destruct (validate_true_is_string _ _ H) as (s & ->).
      rewrite validate_no_type in H. injection H as H.
      apply orb_true_iff in H. eauto.
    + intros (s & -> & H). rewrite validate_no_type.
      apply orb_true_iff in H. rewrite H. reflexivity.
Qed.

Lemma dollar_classifiers_not_hex (data : Data) (n : nat) :
  isBcrypt data || isArgon2 data = true ->
  hexString n (toString data) -> False.
Proof.
  intros H Hhex. apply orb_true_iff in H as [H | H].
  - apply isBcrypt_prefix in H as (t & Ht).
    exact (dollar_string_not_hex n _ _ Ht Hhex).
  - apply isArgon2_prefix in H as (c & t & Ht & _).
    exact (dollar_string_not_hex n _ _ Ht Hhex).
Qed.

(** X6. A value that passes the validator without a type is rejected by the
    validator configured for MD5, SHA-1 or SHA-256: the default check admits
    no hexadecimal digest. *)
Theorem X6_default_validation_excludes_hex_digests (value : JsValue) :
  validate None value = JBool true ->
  validate (Some (lit "md5")) value = JBool false /\
  validate (Some (lit "sha1")) value = JBool false /\
  validate (Some (lit "sha256")) value = JBool false.
Proof.
  intros H. destruct (validate_true_is_string _ _ H) as (s & ->).
  rewrite validate_no_type in H. injection H as H.
  pose proof (dollar_classifiers_not_hex (DString s)) as Hno.
  destruct (mapValidationByHashType_recognized s) as (_ & _ & Hm & Hs1 & Hs256).
  rewrite !validate_typed by discriminate. rewrite Hm, Hs1, Hs256.
  destruct (hex_classifiers (DString s)) as (M & S1 & S256).
  repeat split; f_equal; apply not_true_is_false; intros Ht.
  - apply (Hno 32%nat H). apply M, Ht.
  - apply (Hno 40%nat H). apply S1, Ht.
  - apply (Hno 64%nat H). apply S256, Ht.
Qed.

(** X7. A type that names a property inherited from [Object.prototype]
    (such as [constructor] or [toString]) makes the validator return that
    built-in value, which is neither a boolean nor [undefined], for every
    string. *)
Theorem X7_inherited_type_names_yield_builtins (type value : str) :
  type ∈ objectPrototypeNames ->
  exists v,
    validate (Some type) (JString value) = v /\
    (forall b, v <> JBool b) /\ v <> JUndefined.
Proof.
  intros Hin.
  assert (Hne : type <> []).
  { intros ->. revert Hin. apply (bool_decide_unpack _). vm_compute. exact I. }
  rewrite (validate_typed _ _ Hne).
  unfold mapValidationByHashType, getProperty.
  rewrite validationTable_lookup.
  repeat (rewrite decide_False;
    [| intros <-; revert Hin; apply (bool_decide_unpack _);
       vm_compute; exact I ]).
  rewrite (bool_decide_true _ Hin).
  destruct (bool_decide (type = lit "constructor")); eexists;
    (split; [reflexivity|]); split; intros; discriminate.
Qed.

(** * Further properties of the strategy holder *)


(** * Further properties of the strategies *)

(** X9. [BcryptService]: an empty salt and a zero [rounds] are treated as
    absent, so such options hash like a call without the field, and like a
    call without options when both are absent. *)
Theorem X9_bcrypt_falsy_options_are_absent
    (data : Data) (r : option Z) (e : Entropy) :
  BcryptService_hash data
    (Some {| BcryptOptions.salt := Some []; BcryptOptions.rounds := r |}) e =
  BcryptService_hash data
    (Some {| BcryptOptions.salt := None; BcryptOptions.rounds := r |}) e /\
  BcryptService_hash data
    (Some {| BcryptOptions.salt := None; BcryptOptions.rounds := Some 0%Z |}) e =
  BcryptService_hash data None e /\
  BcryptService_hash data
    (Some {| BcryptOptions.salt := Some []; BcryptOptions.rounds := Some 0%Z |})
    e =
  BcryptService_hash data None e /\
  BcryptService_hash data
    (Some {| BcryptOptions.salt := None; BcryptOptions.rounds := None |}) e =
  BcryptService_hash data None e.
Proof. repeat split. Qed.

(** X10. [Argon2Service]: unless the caller passes [null] for the options,
    neither [hash] nor [compare] depends on the options given to the
    constructor; with [null] the constructor options are the ones handed to
    the primitive. *)
Theorem X10_argon2_constructor_options_need_null
    (this this' : Argon2Service.t) (data : Data) (encrypted : str)
    (options : Arg Argon2Options.t) :
  options <> ArgNull ->
  Argon2Service_hash this data options =
    Argon2Service_hash this' data options /\
  Argon2Service_compare this data encrypted options =
    Argon2Service_compare this' data encrypted options /\
  Argon2Service_hash this data ArgNull =
    argon2_hash data (Argon2Service.options this) /\
  Argon2Service_compare this data encrypted ArgNull =
    argon2_verify encrypted data (Argon2Service.options this).
Proof.
  intros Hnull. destruct options as [| |o]; try contradiction;
    (split; [reflexivity|]); (split; [reflexivity|]);
    unfold Argon2Service_hash, Argon2Service_compare; cbn [defaultParam];
    destruct (Argon2Service.options this); split; reflexivity.
Qed.

Lemma Pbkdf2Strategy_getFinalOptions_default (this : Pbkdf2Strategy.t) :
  Pbkdf2Strategy_getFinalOptions this
    (default Pbkdf2Options.empty (Pbkdf2Strategy.options this)) =
  Pbkdf2Strategy_getFinalOptions this Pbkdf2Options.empty.
Proof.
  unfold Pbkdf2Strategy_getFinalOptions.
  destruct (Pbkdf2Strategy.options this) as [[sa it kl dg]|]; simpl;
    [|reflexivity].
  destruct sa, it, kl, dg; reflexivity.
Qed.

(** [compare] recomputes the hash under the options it was given and
    compares the texts. *)
Lemma Pbkdf2Strategy_compare_rehash (this : Pbkdf2Strategy.t) (data : Data)
    (hashed : Data) (options : option Pbkdf2Options.t) :
  Pbkdf2Strategy_compare this data hashed options =
  let* hashedData := Pbkdf2Strategy_hash this data options in
  Return (bool_decide (hashedData = toStringBase64 hashed)).
Proof.
  unfold Pbkdf2Strategy_compare.
  replace (Pbkdf2Strategy_hash this data (Some _))
    with (Pbkdf2Strategy_hash this data options); [reflexivity|].
  unfold Pbkdf2Strategy_hash. cbn [default from_option id].
  rewrite Pbkdf2Strategy_getFinalOptions_idem. destruct options as [o|].
  - reflexivity.
  - cbn [default from_option id].
    rewrite Pbkdf2Strategy_getFinalOptions_default. reflexivity.
Qed.

(** X11. [Pbkdf2Strategy.compare], with or without options, returns true
    exactly when [hash] under the same options returns the given text,
    returns false when [hash] returns another text, and fails exactly when
    [hash] fails, with the same error. *)
Theorem X11_pbkdf2_compare_is_rehash (this : Pbkdf2Strategy.t) (data : Data)
    (hashed : Data) (options : option Pbkdf2Options.t) :
  (Pbkdf2Strategy_compare this data hashed options = Return true <->
   Pbkdf2Strategy_hash this data options = Return (toStringBase64 hashed)) /\
  (Pbkdf2Strategy_compare this data hashed options = Return false <->
   exists h, Pbkdf2Strategy_hash this data options = Return h /\
             h <> toStringBase64 hashed) /\
  (forall err,
     Pbkdf2Strategy_compare this data hashed options = Throw err <->
     Pbkdf2Strategy_hash this data options = Throw err).
Proof.
  rewrite Pbkdf2Strategy_compare_rehash.
  destruct (Pbkdf2Strategy_hash this data options) as [h|e]; cbn [bindC].
  - destruct (decide (h = toStringBase64 hashed)) as [E|E].
    + rewrite (bool_decide_true _ E). split; [|split].
      * split; [intros _; f_equal; exact E | reflexivity].
      * split; [discriminate|]. intros (h' & Hh & Hne).
        injection Hh as <-. contradiction.
      * intros err. split; discriminate.
    + rewrite (bool_decide_false _ E). split; [|split].
      * split; [discriminate|]. intros Hh. injection Hh as Hh. contradiction.
      * split; [intros _; eauto | reflexivity].
      * intros err. split; discriminate.
  - split; [|split].
    + split; discriminate.
    + split; [discriminate|]. intros (h' & Hh & _). discriminate.
    + intros err. split; intros H; injection H as ->; reflexivity.
Qed.

(** X12. [Pbkdf2Strategy.compare] accepts the digest as a Buffer of the
    raw derived key: it encodes the Buffer in base64 before comparing. *)
Theorem X12_pbkdf2_compare_accepts_raw_key (this : Pbkdf2Strategy.t)
    (data : Data) (options : option Pbkdf2Options.t) (derived : list N) :
  let final :=
    Pbkdf2Strategy_getFinalOptions this
      (default Pbkdf2Options.empty options) in
  crypto_pbkdf2 data (Pbkdf2Options.salt final)
    (Pbkdf2Options.iterations final) (Pbkdf2Options.keylen final)
    (Pbkdf2Options.digest final) = Return derived ->
  Pbkdf2Strategy_compare this data (DBuffer derived) options = Return true.
Proof.
  intros final Hk. rewrite Pbkdf2Strategy_compare_rehash.
  unfold Pbkdf2Strategy_hash. fold final. rewrite Hk. cbn [bindC toStringBase64].
  rewrite bool_decide_true by reflexivity. reflexivity.
Qed.

(** X13. A strategy constructed without options draws a 16-byte salt and
    takes 1000 iterations, 64 bytes and sha256 as defaults, each of which a
    per-call option overrides; a strategy constructed with options draws
    nothing and falls back to exactly the fields it was given. *)
Theorem X13_pbkdf2_constructor_defaults (data : Data) (o c : Pbkdf2Options.t)
    (e : Entropy) :
  Pbkdf2Strategy_hash (fst (Pbkdf2Strategy_new None e)) data (Some o) =
    (let* hashedData :=
       crypto_pbkdf2 data
         (nullish (Pbkdf2Options.salt o)
            (Some (DBuffer (fst (crypto_randomBytes 16 e)))))
         (nullish (Pbkdf2Options.iterations o) (Some 1000%Z))
         (nullish (Pbkdf2Options.keylen o) (Some 64%Z))
         (nullish (Pbkdf2Options.digest o) (Some (lit "sha256"))) in
     Return (bufferToBase64 hashedData)) /\
  snd (Pbkdf2Strategy_new None e) = snd (crypto_randomBytes 16 e) /\
  Pbkdf2Strategy_hash (fst (Pbkdf2Strategy_new (Some c) e)) data (Some o) =
    (let* hashedData :=
       crypto_pbkdf2 data
         (nullish (Pbkdf2Options.salt o) (Pbkdf2Options.salt c))
         (nullish (Pbkdf2Options.iterations o) (Pbkdf2Options.iterations c))
         (nullish (Pbkdf2Options.keylen o) (Pbkdf2Options.keylen c))
         (nullish (Pbkdf2Options.digest o) (Pbkdf2Options.digest c)) in
     Return (bufferToBase64 hashedData)) /\
  snd (Pbkdf2Strategy_new (Some c) e) = e.
Proof.
  unfold Pbkdf2Strategy_new.
  destruct (crypto_randomBytes 16 e) as [bytes e']. repeat split.
Qed.

(** X14. [RsaService.encrypt] and [decrypt] never let an error of the
    primitive escape: whatever it throws, the caller gets the fixed error
    "Encryption failed" (resp. "Decryption failed") and the original error
    is the one line written to the console; on success nothing is
    written. *)
Theorem X14_rsa_errors_are_masked (P : CipherPrimitives Entropy) (data : Data)
    (encryptedData key : str) (e : Entropy) (console : Console) :
  (forall err,
     fst (fst (RsaService_encrypt P data key e console)) = Throw err ->
     err = Error (lit "Encryption failed") /\
     exists cause,
       fst (crypto_publicEncrypt P (oaepSha256 key) (bufferFrom P data) e)
         = Throw cause /\
       snd (RsaService_encrypt P data key e console) =
         console ++ [(lit "Encryption error:", cause)]) /\
  (forall err,
     fst (RsaService_decrypt P encryptedData key console) = Throw err ->
     err = Error (lit "Decryption failed") /\
     exists cause,
       crypto_privateDecrypt P (oaepSha256 key) (base64Decode P encryptedData)
         = Throw cause /\
       snd (RsaService_decrypt P encryptedData key console) =
         console ++ [(lit "Decryption error:", cause)]) /\
  (forall text,
     fst (fst (RsaService_encrypt P data key e console)) = Return text ->
     snd (RsaService_encrypt P data key e console) = console) /\
  (forall text,
     fst (RsaService_decrypt P encryptedData key console) = Return text ->
     snd (RsaService_decrypt P encryptedData key console) = console).
Proof.
  unfold RsaService_encrypt, RsaService_decrypt.
  destruct (crypto_publicEncrypt P (oaepSha256 key) (bufferFrom P data) e)
    as [[c|cause] e'];
    destruct (crypto_privateDecrypt P (oaepSha256 key)
                (base64Decode P encryptedData)) as [d|cause'];
    cbn [fst snd]; repeat split; intros; try discriminate; eauto;
    try congruence.
Qed.

(** X15. RSA round trip: when the private key decrypts what the public key
    encrypts under OAEP with SHA-256, base64 decoding inverts base64
    encoding and the message survives UTF-8 encoding, [decrypt] of the
    result of [encrypt] returns the message and writes nothing to the
    console. *)
Theorem X15_rsa_decrypt_after_encrypt (P : CipherPrimitives Entropy)
    (message publicKey privateKey : str)
    (e e' : Entropy) (console : Console) (encrypted : str) :
  (forall bytes e1 c e2,
     crypto_publicEncrypt P (oaepSha256 publicKey) bytes e1 = (Return c, e2) ->
     crypto_privateDecrypt P (oaepSha256 privateKey) c = Return bytes) ->
  (forall c, base64Decode P (bufferToBase64 c) = c) ->
  bufferToString (utf8Encode P message) = message ->
  RsaService_encrypt P (DString message) publicKey e console =
    (Return encrypted, e', console) ->
  RsaService_decrypt P encrypted privateKey console = (Return message, console).
Proof.
  intros Hpair H64 Hutf. unfold RsaService_encrypt, RsaService_decrypt.
  cbn [bufferFrom].
  destruct (crypto_publicEncrypt P (oaepSha256 publicKey)
              (utf8Encode P message) e)
    as [[c|cause] e2] eqn:Henc; intros Hres; [|discriminate Hres].
  injection Hres as <- _. rewrite H64, (Hpair _ _ _ _ Henc), Hutf.
  reflexivity.
Qed.

End WithRuntime.

(** * Concrete runs on the reference instance of the runtime *)

(** C2: on a new holder [getInstance()] returns [undefined]; it does not
    fail. *)
Lemma C2_getInstance_before_set :
  getInstance newHashBin = Return JUndefined /\
  ~ (exists err, getInstance newHashBin = Throw err).
Proof. split; [reflexivity|]. intros [err H]. discriminate H. Qed.

(** C4: [isBcrypt(null)] throws a [TypeError]; it does not return
    [false]. *)
Lemma C4_classifier_throws_on_null :
  callClassifier refUpper refDecode refToString bcryptHashPattern JNull
    = Throw TypeError /\
  callClassifier refUpper refDecode refToString bcryptHashPattern JNull
    <> Return false.
Proof. split; [reflexivity | discriminate]. Qed.

Lemma C8_validate_rejects_null :
  typeof JNull <> TyString /\
  validate refUpper refDecode (Some (lit "md5")) JNull = JBool false.
Proof.
  split; [discriminate|].
  apply (C8_validate_rejects_non_strings refUpper refDecode
           (Some (lit "md5")) JNull).
  discriminate.
Defined.

Lemma C10_bcrypt_fixed_salt_run :
  lit "$2b$10$saltsaltsaltsaltsalt22" <> [] /\
  BcryptService_hash nat refGenSalt refBcryptHash (DString (lit "test-data"))
    (Some {| BcryptOptions.salt := Some (lit "$2b$10$saltsaltsaltsaltsalt22");
             BcryptOptions.rounds := Some 8%Z |}) 0%nat =
  BcryptService_hash nat refGenSalt refBcryptHash (DString (lit "test-data"))
    (Some {| BcryptOptions.salt := Some (lit "$2b$10$saltsaltsaltsaltsalt22");
             BcryptOptions.rounds := None |}) 0%nat.
Proof.
  split; [discriminate|].
  apply (C10_bcrypt_salt_overrides_rounds nat refGenSalt refBcryptHash
           (DString (lit "test-data")) (lit "$2b$10$saltsaltsaltsaltsalt22")
           (Some 8%Z) None 0%nat).
  discriminate.
Defined.

Lemma C7_pbkdf2_round_trip_run :
  Pbkdf2Strategy_hash refPbkdf2 refBase64 refStrategy
    (DString (lit "test-data")) (Some refOptions)
    = Return (lit "testSalttest-data") /\
  Pbkdf2Strategy_compare refPbkdf2 refBase64 refStrategy
    (DString (lit "test-data")) (DString (lit "testSalttest-data"))
    (Some refOptions) = Return true /\
  Pbkdf2Strategy_hash refPbkdf2 refBase64 refStrategy
    (DString (lit "test-data"))
    (Some (withSalt (DString (lit "salt1")) refOptions)) <>
  Pbkdf2Strategy_hash refPbkdf2 refBase64 refStrategy
    (DString (lit "test-data"))
    (Some (withSalt (DString (lit "salt2")) refOptions)).
Proof.
  split; [reflexivity|].
  destruct (C7_pbkdf2_compare_with_same_options refPbkdf2 refBase64
              refStrategy (DString (lit "test-data")) refOptions
              (lit "testSalttest-data")
              (DString (lit "salt1")) (DString (lit "salt2")))
    as [Hcompare Hsalts].
  - reflexivity.
  - split; [exact Hcompare|]. apply Hsalts.
    + intros a b H. exact H.
    + vm_compute. discriminate.
Defined.

Lemma X3_md5_text_is_ascii :
  isBcrypt refUpper refDecode (DString (lit "5d41402abc4b2a76b9719d911017c592"))
  || isArgon2 refUpper refDecode (DString (lit "5d41402abc4b2a76b9719d911017c592"))
  || isMD5 refUpper refDecode (DString (lit "5d41402abc4b2a76b9719d911017c592"))
  || isSHA1 refUpper refDecode (DString (lit "5d41402abc4b2a76b9719d911017c592"))
  || isSHA256 refUpper refDecode (DString (lit "5d41402abc4b2a76b9719d911017c592"))
    = true /\
  Forall (fun c => c < 128) (lit "5d41402abc4b2a76b9719d911017c592").
Proof.
  split; [vm_compute; reflexivity|].
  apply (X3_accepted_texts_are_ascii refUpper refDecode
           (DString (lit "5d41402abc4b2a76b9719d911017c592"))).
  vm_compute. reflexivity.
Defined.

Lemma X6_bcrypt_text_is_no_hex_digest :
  validate refUpper refDecode None
    (JString (lit "$2b$10$" ++ repeat (cu "A") 53)) = JBool true /\
  validate refUpper refDecode (Some (lit "md5"))
    (JString (lit "$2b$10$" ++ repeat (cu "A") 53)) = JBool false.
Proof.
  split; [vm_compute; reflexivity|].
  apply (X6_default_validation_excludes_hex_digests refUpper refDecode
           (JString (lit "$2b$10$" ++ repeat (cu "A") 53))).
  vm_compute. reflexivity.
Defined.

Lemma X7_toString_as_type :
  lit "toString" ∈ objectPrototypeNames /\
  exists v,
    validate refUpper refDecode (Some (lit "toString")) (JString (lit "abc")) = v /\
    (forall b, v <> JBool b) /\ v <> JUndefined.
Proof.
  assert (H : lit "toString" ∈ objectPrototypeNames).
  { apply (bool_decide_unpack _). vm_compute. exact I. }
  split; [exact H|].
  apply (X7_inherited_type_names_yield_builtins refUpper refDecode
           (lit "toString") (lit "abc")).
  exact H.
Defined.

Lemma X10_argon2_no_options_run :
  @ArgUndefined Argon2Options.t <> ArgNull /\
  Argon2Service_hash nat refArgon2Hash
    {| Argon2Service.options := Some
         {| Argon2Options.hashLength := None;
            Argon2Options.timeCost := Some 5%Z;
            Argon2Options.memoryCost := Some 65536%Z;
            Argon2Options.parallelism := Some 2%Z |} |}
    (DString (lit "test-data")) ArgUndefined =
  Argon2Service_hash nat refArgon2Hash
    {| Argon2Service.options := None |}
    (DString (lit "test-data")) ArgUndefined.
Proof.
  split; [discriminate|].
  apply (X10_argon2_constructor_options_need_null nat refArgon2Hash
           refArgon2Verify _ _ (DString (lit "test-data")) [] ArgUndefined).
  discriminate.
Defined.

Lemma X12_pbkdf2_raw_key_run :
  refPbkdf2 (DString (lit "test-data")) (Some (DString (lit "testSalt")))
    (Some 1000%Z) (Some 64%Z) (Some (lit "sha256"))
    = Return (lit "testSalttest-data") /\
  Pbkdf2Strategy_compare refPbkdf2 refBase64 refStrategy
    (DString (lit "test-data")) (DBuffer (lit "testSalttest-data")) None
    = Return true.
Proof.
  split; [reflexivity|].
  apply (X12_pbkdf2_compare_accepts_raw_key refPbkdf2 refBase64 refStrategy
           (DString (lit "test-data")) None (lit "testSalttest-data")).
  reflexivity.
Defined.

Lemma X15_rsa_round_trip_run :
  RsaService_encrypt nat refBase64 refCipher (DString (lit "Hello, RSA!"))
    (lit "k") 0%nat []
    = (Return (lit "k" ++ 0 :: lit "Hello, RSA!"), 1%nat, []) /\
  RsaService_decrypt refDecode nat refCipher
    (lit "k" ++ 0 :: lit "Hello, RSA!") (lit "k") []
    = (Return (lit "Hello, RSA!"), []).
Proof.
  split; [reflexivity|].
  apply (X15_rsa_decrypt_after_encrypt refDecode nat refBase64 refCipher
           (lit "Hello, RSA!") (lit "k") (lit "k") 0%nat 1%nat []
           (lit "k" ++ 0 :: lit "Hello, RSA!")).
  - intros bytes e1 c e2 H. injection H as <- _. reflexivity.
  - intros c. reflexivity.
  - reflexivity.
  - reflexivity.
Defined.
